(** * flooerr: structured errors, their builder and the introspection helpers

    A shallow embedding of the Go packages [flooerr/internal] (the fluent
    builder [ErrProps] and its terminal [Build]) and [flooerr] (the error
    value [err], its accessors, and the chain utilities of parse.go).

    Conventions of the embedding:
    - a Go [error] interface value is [option error]: [None] is the nil
      interface, [Some e] carries one of the dynamic types below;
    - a Go map is a [gomap]: either the nil map or a made map backed by a
      [gmap]; writing to the nil map panics, as in Go;
    - code that can panic returns a [result];
    - the goroutine's call stack and the symbol table are inputs: the stack
      is the list of program counters that [runtime.Callers] sees, innermost
      first, and [CallersFrames] is the symbolisation of a list of pcs. *)

From stdpp Require Import base option list strings gmap.
From Stdlib Require Import ZArith Lia.

Local Open Scope string_scope.
Local Open Scope list_scope.
Local Open Scope Z_scope.

(** ** Panics *)

Inductive result (A : Type) : Type :=
| Ok (a : A)
| Panic (reason : string).
Arguments Ok {A} a.
Arguments Panic {A} reason.

#[global] Instance result_ret : MRet result := fun A => @Ok A.
#[global] Instance result_bind : MBind result := fun A B f r =>
  match r with
  | Ok a => f a
  | Panic s => Panic s
  end.

(** ** Go maps *)

Inductive gomap (V : Type) : Type :=
| nil_map
| make_map (m : gmap string V).
Arguments nil_map {V}.
Arguments make_map {V} m.

Definition is_nil_map {V : Type} (m : gomap V) : bool :=
  match m with nil_map => true | make_map _ => false end.

(** [len(m)]: zero for the nil map. *)
Definition map_len {V : Type} (m : gomap V) : nat :=
  match m with nil_map => O | make_map g => size g end.

(** [v, ok := m[k]]: reading the nil map finds nothing. *)
Definition map_index {V : Type} (m : gomap V) (k : string) : option V :=
  match m with nil_map => None | make_map g => g !! k end.

(** [m[k] = v]: the map is a reference, so the made map is updated in place;
    on the nil map the assignment panics. *)
Definition map_assign {V : Type} (m : gomap V) (k : string) (v : V)
  : result (gomap V) :=
  match m with
  | nil_map => Panic "assignment to entry in nil map"
  | make_map g => Ok (make_map (<[k := v]> g))
  end.

(** Values stored in the [any]-typed context bag. *)
Inductive any : Type :=
| any_nil
| any_string (s : string)
| any_int (z : Z)
| any_bool (b : bool)
| any_strmap (m : gomap string).

(** ** The runtime's stack introspection *)

Definition uintptr : Type := Z.

(** [runtime.Frame], reduced to the fields the package reads. *)
Record Frame : Type := mkFrame {
  frame_Function : string;
  frame_File : string;
  frame_Line : Z
}.

Definition zeroFrame : Frame := mkFrame "" "" 0.

(** [runtime.Callers(skip, buf)], with a buffer of [buflen] slots: the stack
    is listed innermost first, element 0 being the frame of [Callers]
    itself; the call fills the buffer with the pcs that follow the [skip]
    first ones and returns how many it wrote. *)
Definition runtime_Callers (skip buflen : nat) (stack : list uintptr)
  : list uintptr * Z :=
  let written := take buflen (drop skip stack) in
  (written ++ replicate (buflen - length written)%nat 0,
   Z.of_nat (length written)).

(** The slice expression [a[lo:hi]] on an array of capacity [length a]. *)
Definition slice (a : list uintptr) (lo hi : Z) : result (list uintptr) :=
  if (lo <? 0) || (hi <? lo) || (Z.of_nat (length a) <? hi)
  then Panic "slice bounds out of range"
  else Ok (take (Z.to_nat (hi - lo)) (drop (Z.to_nat lo) a)).

(** [Next] of [runtime.Frames]: the iterator is the list of frames still to
    be returned; [more] tells whether a further call will return a frame. *)
Definition Frames_Next (frames : list Frame) : Frame * bool * list Frame :=
  match frames with
  | [] => (zeroFrame, false, [])
  | f :: rest => (f, match rest with [] => false | _ :: _ => true end, rest)
  end.

(** ** The dynamic types behind the [error] interface *)

(** [internal.Code]. *)
Definition Code : Type := string.
Definition Code_String (code : Code) : string := code.

(** stacktrace.go *)
Record stacktrace : Type := mkStacktrace {
  Function : string;
  File : string;
  Line : Z
}.

(** The struct [err] of error.go; [E] is the type of error values, tied
    below. *)
Record err_ (E : Type) : Type := mkErr {
  message : string;
  errMessage : string;
  code : Code;
  cause : option E;
  stackTracePTR : list uintptr;
  stackTrace : list stacktrace;
  context : gomap any;
  sdc : gomap string
}.
Arguments mkErr {E}.
Arguments message {E}.
Arguments errMessage {E}.
Arguments code {E}.
Arguments cause {E}.
Arguments stackTracePTR {E}.
Arguments stackTrace {E}.
Arguments context {E}.
Arguments sdc {E}.

(** Error values: [errors.New] strings, [fmt.Errorf] wrappers around one
    inner error ([%w]), the builder's fallback [simpleError], the
    structured [*err], and the errors that wrap several errors, with an
    [Unwrap() []error] method: [fmt.Errorf] with more than one [%w], and
    the result of [errors.Join] (below). Values are finite trees: unwrapping
    ends and cannot loop back. *)
#[warnings="-register-all"]
Inductive error : Type :=
| errorString (s : string)
| wrapError (msg : string) (inner : error)
| simpleError (msg : string)
| flooErr (e : err_ error)
| wrapErrors (msg : string) (errs : list error).

Definition err : Type := err_ error.

(** The interface call [e.Error()], dispatched on the dynamic type. The
    [*err] case is error.go's [Error]: [%v] on a non-nil error prints its
    [Error()]. *)
Fixpoint error_Error (e : error) : string :=
  match e with
  | errorString s => s
  | wrapError msg _ => msg
  | simpleError msg => msg
  | flooErr x =>
      match cause x with
      | Some c => errMessage x +:+ "; caused by: " +:+ error_Error c
      | None => errMessage x
      end
  | wrapErrors msg _ => msg
  end.

(** [errors.Unwrap]: calls the [Unwrap() error] method when the dynamic type
    has one; it does not call [Unwrap() []error]. *)
Definition errors_Unwrap (e : error) : option error :=
  match e with
  | errorString _ => None
  | wrapError _ inner => Some inner
  | simpleError _ => None
  | flooErr x => cause x
  | wrapErrors _ _ => None
  end.

(** The line feed between the texts of joined errors. *)
Definition newline : string :=
  String (Ascii.Ascii false true false true false false false false) "".

(** [errors.Join]: nil arguments are dropped, nil is returned when nothing
    is left, else an error that unwraps to the arguments left and whose text
    is their texts, one per line. *)
Definition errors_Join (errs : list (option error)) : option error :=
  let kept : list error := omap id errs in
  match kept with
  | [] => None
  | _ :: _ =>
      Some (wrapErrors
              (String.concat newline (error_Error <$> kept))
              kept)
  end.

(** [fmt.Errorf(prefix + "%w", inner)] with a non-nil [inner]: the text is
    the prefix followed by the text of [inner], which it wraps. *)
Definition fmt_Errorf_w (prefix : string) (inner : error) : error :=
  wrapError (prefix +:+ error_Error inner) inner.

(** ** Package [internal]: the builder *)

Module internal.

Record ErrProps : Type := mkErrProps {
  message : string;
  code : string;
  withStackTrace : bool;
  context : gomap any;
  sdc : gomap string
}.

Definition create : ErrProps :=
  let context := make_map ∅ in
  let sdc := make_map ∅ in
  {| message := ""; code := ""; withStackTrace := true;
     context := context; sdc := sdc |}.

Definition Create : ErrProps := create.

(** The [With...] methods update the receiver in place and return it; the
    returned value is the receiver after the call. *)
Definition WithMessage (receiver : ErrProps) (msg : string) : ErrProps :=
  {| message := msg; code := code receiver;
     withStackTrace := withStackTrace receiver;
     context := context receiver; sdc := sdc receiver |}.

Definition WithCode (receiver : ErrProps) (c : string) : ErrProps :=
  {| message := message receiver; code := c;
     withStackTrace := withStackTrace receiver;
     context := context receiver; sdc := sdc receiver |}.

Definition WithStackTrace (receiver : ErrProps) (enableStackTrace : bool)
  : ErrProps :=
  {| message := message receiver; code := code receiver;
     withStackTrace := enableStackTrace;
     context := context receiver; sdc := sdc receiver |}.

Definition WithContext (receiver : ErrProps) (key : string) (value : any)
  : result ErrProps :=
  ctx ← map_assign (context receiver) key value;
  mret {| message := message receiver; code := code receiver;
          withStackTrace := withStackTrace receiver;
          context := ctx; sdc := sdc receiver |}.

Definition WithSDC (receiver : ErrProps) (key : string) (value : string)
  : result ErrProps :=
  s ← map_assign (sdc receiver) key value;
  mret {| message := message receiver; code := code receiver;
          withStackTrace := withStackTrace receiver;
          context := context receiver; sdc := s |}.

(** The constructor seam: the package variable [buildErrFunc] holds either
    nothing or a function of this type; a Go function of result type
    [error] may return nil. *)
Definition BuildErrFunc : Type :=
  string -> string -> Code -> option error -> list uintptr ->
  gomap any -> gomap string -> option error.

Definition SetBuildErrFunc (fn : option BuildErrFunc) : option BuildErrFunc :=
  fn.

Definition depth : nat := 15.

Definition callers (skip : nat) (stack : list uintptr)
  : result (list uintptr) :=
  let '(pcs, n) := runtime_Callers skip depth stack in
  slice pcs 0 (n - 2).

(** [Build]: [buildErrFunc] is the current value of the package variable and
    [stack] the goroutine's stack at the moment [runtime.Callers] runs. *)
Definition Build (buildErrFunc : option BuildErrFunc) (stack : list uintptr)
    (receiver : ErrProps) (cause : option error) (msg : string)
  : result (option error) :=
  stackTracePTR ← (if withStackTrace receiver
                   then callers 4 stack
                   else mret []);
  let errMessage :=
    if decide (message receiver ≠ "") then message receiver else msg in
  match buildErrFunc with
  | Some fn =>
      mret (fn (message receiver) errMessage (code receiver) cause
               stackTracePTR (context receiver) (sdc receiver))
  | None =>
      match cause with
      | Some c => mret (Some c)
      | None => mret (Some (simpleError errMessage))
      end
  end.

Definition ErrProps_Error (buildErrFunc : option BuildErrFunc)
    (stack : list uintptr) (receiver : ErrProps) (cause : option error)
    (msg : string) : result (option error) :=
  Build buildErrFunc stack receiver cause msg.

Definition Wrap (buildErrFunc : option BuildErrFunc)
    (stack : list uintptr) (receiver : ErrProps) (cause : option error)
    (msg : string) : result (option error) :=
  Build buildErrFunc stack receiver cause msg.

(** A configuration call of the fluent chain, and a chain of them run from
    left to right on a builder. *)
Inductive call : Type :=
| CallWithMessage (msg : string)
| CallWithCode (c : string)
| CallWithStackTrace (enableStackTrace : bool)
| CallWithContext (key : string) (value : any)
| CallWithSDC (key : string) (value : string).

Definition run_call (receiver : ErrProps) (c : call) : result ErrProps :=
  match c with
  | CallWithMessage msg => mret (WithMessage receiver msg)
  | CallWithCode c => mret (WithCode receiver c)
  | CallWithStackTrace b => mret (WithStackTrace receiver b)
  | CallWithContext k v => WithContext receiver k v
  | CallWithSDC k v => WithSDC receiver k v
  end.

Fixpoint run_chain (receiver : ErrProps) (cs : list call) : result ErrProps :=
  match cs with
  | [] => mret receiver
  | c :: cs' => r ← run_call receiver c; run_chain r cs'
  end.

End internal.

(** ** Package [flooerr]: the error value and the introspection helpers *)

(** parse.go's snapshot of an error. *)
Module ErrorInfo.
Record t : Type := mk {
  Code : Code;
  Message : string;
  ErrorMsg : string;
  Context : gomap any;
  SDC : gomap string;
  StackTrace : list stacktrace;
  Cause : option error;
  IsFlooErr : bool
}.
End ErrorInfo.

Module flooerr.

Section WithSymbols.

(** [runtime.CallersFrames]: the frames that the iterator built from a list
    of pcs returns, in order. *)
Variable CallersFrames : list uintptr -> list Frame.

(** *** error.go: methods of [err] *)

Definition err_Code (e : err) : Code := code e.

Definition err_Message (e : err) : string := message e.

(** The loop of [StackTrace]: take the next frame, leave the loop when
    [more] is false, else append the frame and go on. *)
Fixpoint StackTrace_loop (frames : list Frame) (traces : list stacktrace)
  : list stacktrace :=
  match frames with
  | [] => traces
  | frame :: rest =>
      match rest with
      | [] => traces
      | _ :: _ =>
          StackTrace_loop rest
            (traces ++ [ {| Function := frame_Function frame;
                            File := frame_File frame;
                            Line := frame_Line frame |} ])
      end
  end.

Definition set_stackTrace (e : err) (traces : list stacktrace) : err :=
  mkErr (message e) (errMessage e) (code e) (cause e) (stackTracePTR e)
        traces (context e) (sdc e).

(** [StackTrace] has a pointer receiver and fills the cache: it returns the
    trace and the receiver as it is after the call. *)
Definition err_StackTrace (e : err) : list stacktrace * err :=
  if (0 <? length (stackTrace e))%nat then (stackTrace e, e)
  else if (length (stackTracePTR e) =? 0)%nat then ([], e)
  else
    let frames := CallersFrames (stackTracePTR e) in
    let traces := StackTrace_loop frames [] in
    (traces, set_stackTrace e traces).

Definition err_Unwrap (e : err) : option error := cause e.

Definition err_Context (e : err) : gomap any := context e.

Definition err_SDC (e : err) : gomap string := sdc e.

Definition err_Error (e : err) : string :=
  match cause e with
  | Some c => errMessage e +:+ "; caused by: " +:+ error_Error c
  | None => errMessage e
  end.

Definition newErr (msg errMsg : string) (c : Code) (cause0 : option error)
    (pcs : list uintptr) (ctx : gomap any) (s : gomap string) : err :=
  {| message := msg; errMessage := errMsg; code := c; cause := cause0;
     stackTracePTR := pcs; stackTrace := []; context := ctx; sdc := s |}.

(** The function that [init] registers with [internal.SetBuildErrFunc]. *)
Definition init_buildErrFunc : internal.BuildErrFunc :=
  fun msg errMsg c cause0 pcs ctx s =>
    Some (flooErr (newErr msg errMsg c cause0 pcs ctx s)).

Definition init : option internal.BuildErrFunc :=
  internal.SetBuildErrFunc (Some init_buildErrFunc).

(** *** parse.go *)

(** [errors.As(err, &flooErr)] for a target of interface type [FlooErr]:
    the first error of the chain whose dynamic type implements the
    interface, following [Unwrap() error], and for an error with
    [Unwrap() []error] searching its children in order, each one in depth
    before the next. Of the dynamic types here only [*err] implements the
    interface. *)
Fixpoint errors_As (e : error) : option err :=
  match e with
  | flooErr x => Some x
  | wrapError _ inner => errors_As inner
  | errorString _ => None
  | simpleError _ => None
  | wrapErrors _ errs =>
      (fix children (l : list error) : option err :=
         match l with
         | [] => None
         | c :: l' =>
             match errors_As c with
             | Some x => Some x
             | None => children l'
             end
         end) errs
  end.

Definition AsFlooErr (e : option error) : option err * bool :=
  match e with
  | None => (None, false)
  | Some e' =>
      match errors_As e' with
      | Some fe => (Some fe, true)
      | None => (None, false)
      end
  end.

(** The error [e] after the object that [errors_As] finds in it has become
    [x'] (its stack cache filled). *)
Fixpoint store_As (e : error) (x' : err) : error :=
  match e with
  | flooErr _ => flooErr x'
  | wrapError msg inner => wrapError msg (store_As inner x')
  | errorString _ => e
  | simpleError _ => e
  | wrapErrors msg errs =>
      wrapErrors msg
        ((fix children (l : list error) : list error :=
            match l with
            | [] => []
            | c :: l' =>
                match errors_As c with
                | Some _ => store_As c x' :: l'
                | None => c :: children l'
                end
            end) errs)
  end.

(** [Parse] returns the snapshot, and the argument as it is after the call:
    reading the stack trace fills the cache of the matched error. *)
Definition Parse (e : option error) : ErrorInfo.t * option error :=
  match e with
  | None =>
      (ErrorInfo.mk "" "" "" nil_map nil_map [] None false, None)
  | Some e' =>
      match AsFlooErr (Some e') with
      | (Some fe, true) =>
          let '(st, fe') := err_StackTrace fe in
          (ErrorInfo.mk (err_Code fe) (err_Message fe) (err_Error fe)
             (err_Context fe) (err_SDC fe) st (err_Unwrap fe) true,
           Some (store_As e' fe'))
      | _ =>
          (ErrorInfo.mk "" "" (error_Error e') nil_map nil_map [] None false,
           Some e')
      end
  end.

Definition GetCode (e : option error) : Code :=
  match AsFlooErr e with
  | (Some fe, true) => err_Code fe
  | _ => ""
  end.

Definition GetCodeString (e : option error) : string :=
  Code_String (GetCode e).

Definition GetMessage (e : option error) : string :=
  match AsFlooErr e with
  | (Some fe, true) => err_Message fe
  | _ => ""
  end.

Definition GetContext (e : option error) : gomap any :=
  match AsFlooErr e with
  | (Some fe, true) => err_Context fe
  | _ => nil_map
  end.

Definition GetSDC (e : option error) : gomap string :=
  match AsFlooErr e with
  | (Some fe, true) => err_SDC fe
  | _ => nil_map
  end.

Definition GetCause (e : option error) : option error :=
  match AsFlooErr e with
  | (Some fe, true) => err_Unwrap fe
  | _ => None
  end.

Definition GetContextValue (e : option error) (key : string) : any :=
  let ctx := GetContext e in
  if is_nil_map ctx then any_nil
  else default any_nil (map_index ctx key).

Definition GetSDCValue (e : option error) (key : string) : string :=
  let s := GetSDC e in
  if is_nil_map s then ""
  else default "" (map_index s key).

(** Like [Parse], [GetStackTrace] fills the cache of the error it finds. *)
Definition GetStackTrace (e : option error)
  : list stacktrace * option error :=
  match AsFlooErr e with
  | (Some fe, true) =>
      let '(st, fe') := err_StackTrace fe in
      (st, (fun e' => store_As e' fe') <$> e)
  | _ => ([], e)
  end.

Definition IsFlooErr (e : option error) : bool := snd (AsFlooErr e).

Definition HasCode (e : option error) (c : string) : bool :=
  String.eqb (GetCodeString e) c.

Definition HasContextKey (e : option error) (key : string) : bool :=
  let ctx := GetContext e in
  if is_nil_map ctx then false
  else bool_decide (is_Some (map_index ctx key)).

Definition HasSDCKey (e : option error) (key : string) : bool :=
  let s := GetSDC e in
  if is_nil_map s then false
  else bool_decide (is_Some (map_index s key)).

(** The loop of [UnwrapChain]; [fuel] bounds the number of iterations and
    [None] means that it ran out. *)
Fixpoint UnwrapChain_loop (fuel : nat) (current : option error)
    (chain : list error) : option (list error) :=
  match current with
  | None => Some chain
  | Some c =>
      match fuel with
      | O => None
      | S fuel' =>
          let chain := chain ++ [c] in
          match AsFlooErr (Some c) with
          | (Some fe, true) => UnwrapChain_loop fuel' (err_Unwrap fe) chain
          | _ => UnwrapChain_loop fuel' (errors_Unwrap c) chain
          end
      end
  end.

Definition UnwrapChain_fuel (fuel : nat) (e : option error)
  : option (list error) :=
  match e with
  | None => Some []
  | Some _ => UnwrapChain_loop fuel e []
  end.

(** The cause chain of an error: the error, then what [errors.Unwrap]
    yields, repeatedly, until nil. *)
Fixpoint cause_chain (e : error) : list error :=
  e :: match e with
       | wrapError _ inner => cause_chain inner
       | flooErr x =>
           match cause x with
           | Some c => cause_chain c
           | None => []
           end
       | errorString _ => []
       | simpleError _ => []
       | wrapErrors _ _ => []
       end.

(** The tree of an error as [errors.As] goes through it: the error, then
    what its [Unwrap() error] yields, or its children by [Unwrap() []error]
    in order, each one in depth before the next. *)
Fixpoint error_tree (e : error) : list error :=
  e :: match e with
       | wrapError _ inner => error_tree inner
       | flooErr x =>
           match cause x with
           | Some c => error_tree c
           | None => []
           end
       | errorString _ => []
       | simpleError _ => []
       | wrapErrors _ errs =>
           (fix children (l : list error) : list error :=
              match l with
              | [] => []
              | c :: l' => error_tree c ++ children l'
              end) errs
       end.

(** The height of the tree of an error. *)
Fixpoint height (e : error) : nat :=
  S match e with
    | wrapError _ inner => height inner
    | flooErr x =>
        match cause x with
        | Some c => height c
        | None => O
        end
    | errorString _ => O
    | simpleError _ => O
    | wrapErrors _ errs =>
        (fix children (l : list error) : nat :=
           match l with
           | [] => O
           | c :: l' => Nat.max (height c) (children l')
           end) errs
    end.

(** Each iteration goes down in the tree of the error, so its height is
    enough fuel. *)
Definition UnwrapChain (e : option error) : list error :=
  match e with
  | None => []
  | Some e' => default [] (UnwrapChain_fuel (height e') e)
  end.

Definition GetRootCause (e : option error) : option error :=
  let chain := UnwrapChain e in
  if (length chain =? 0)%nat then None
  else chain !! (length chain - 1)%nat.

End WithSymbols.

(** *** error.go: the package-level entry points *)

Definition Message (msg : string) : internal.ErrProps :=
  internal.WithMessage internal.Create msg.

Definition StackTrace : internal.ErrProps :=
  internal.WithStackTrace internal.Create true.

Definition Context (key : string) (value : any) : result internal.ErrProps :=
  internal.WithContext internal.Create key value.

Definition SDC (key : string) (value : gomap string)
  : result internal.ErrProps :=
  internal.WithContext internal.Create key (any_strmap value).

Definition Error (buildErrFunc : option internal.BuildErrFunc)
    (stack : list uintptr) (msg : string) : result (option error) :=
  internal.Build buildErrFunc stack internal.Create None msg.

Definition Wrap (buildErrFunc : option internal.BuildErrFunc)
    (stack : list uintptr) (e : option error) (msg : string)
  : result (option error) :=
  internal.Build buildErrFunc stack internal.Create e msg.

Definition Code (c : Code) : internal.ErrProps :=
  internal.WithCode internal.Create (Code_String c).

End flooerr.

(** * Vocabulary of the properties *)

(** The message that [Build] settles on: the explicit one unless it is
    empty, else the fallback. *)
Definition renderedMessage (explicitMessage fallbackMessage : string)
  : string :=
  if String.eqb explicitMessage "" then fallbackMessage else explicitMessage.

(** What [callers 4] keeps of a stack: the pcs after the four skipped ones,
    as many as the buffer takes, without the last two. *)
Definition recorded (stack : list uintptr) : list uintptr :=
  let written := take internal.depth (drop 4 stack) in
  take (length written - 2) written.

Definition captured (receiver : internal.ErrProps) (stack : list uintptr)
  : list uintptr :=
  if internal.withStackTrace receiver then recorded stack else [].

(** The stack has the two outermost entries that [callers] cuts off, or the
    builder does not capture at all. *)
Definition has_outer_frames (receiver : internal.ErrProps)
    (stack : list uintptr) : bool :=
  negb (internal.withStackTrace receiver)
  || (2 <=? length (drop 4 stack))%nat.

(** The two states of the constructor seam that the repository itself sets
    up: the function registered by [flooerr]'s [init], or nothing. *)
Definition seam (registered : bool) : option internal.BuildErrFunc :=
  if registered then flooerr.init else internal.SetBuildErrFunc None.

(** A stack as a test or [main] sees it when it calls a builder through
    [Error] or [Wrap]: the three frames of the capture, the alias, the
    calling function and the two entries of the runtime below it. *)
Definition sample_stack : list uintptr :=
  [4198400; 4198464; 4198528; 4198592; 4198656; 4198720; 4198784].

(** The stack of a goroutine whose entry function calls [Build] itself:
    [runtime.Callers], [callers], [Build], the entry function and
    [runtime.goexit]. *)
Definition goroutine_entry_stack : list uintptr :=
  [4198400; 4198464; 4198528; 4198656; 4198784].

(** The type assertion [e.(FlooErr)]: does this very value satisfy the
    structured-error interface. *)
Definition implements_FlooErr (e : error) : option err :=
  match e with
  | flooErr x => Some x
  | _ => None
  end.

Definition plain (e : error) : Prop := implements_FlooErr e = None.

Definition disk_full : error := errorString "disk full".

Definition db_err : err :=
  flooerr.newErr "" "query failed" "DB_ERR" (Some disk_full) []
    (make_map {[ "host" := any_string "localhost" ]})
    (make_map {[ "trace_id" := "t1" ]}).

Definition zeroErrorInfo : ErrorInfo.t :=
  ErrorInfo.mk "" "" "" nil_map nil_map [] None false.

(** How [UnwrapChain] leaves a link: by the cause accessor of the structured
    error that [AsFlooErr] finds for the link, else by [errors.Unwrap]. *)
Definition unwrap_link (e : error) : option error :=
  match flooerr.AsFlooErr (Some e) with
  | (Some fe, true) => flooerr.err_Unwrap fe
  | _ => errors_Unwrap e
  end.

(** A bound on the iterations still ahead of the loop. *)
Definition links (current : option error) : nat :=
  match current with
  | None => O
  | Some e => flooerr.height e
  end.

Definition top_err : err :=
  flooerr.newErr "top" "top" "" (Some (flooErr db_err)) [] (make_map ∅)
    (make_map ∅).

(** A structured error without a cause. *)
Definition lone_err : err :=
  flooerr.newErr "" "not found" "NOT_FOUND" None [] (make_map ∅)
    (make_map ∅).

(** No structured error sits below a plain wrapper, of one error or of
    several, anywhere along the chain. *)
Fixpoint no_wrapped_FlooErr (e : error) : bool :=
  match e with
  | errorString _ => true
  | simpleError _ => true
  | wrapError _ inner =>
      match flooerr.errors_As inner with
      | Some _ => false
      | None => no_wrapped_FlooErr inner
      end
  | flooErr x =>
      match cause x with
      | Some c => no_wrapped_FlooErr c
      | None => true
      end
  | wrapErrors _ _ =>
      match flooerr.errors_As e with
      | Some _ => false
      | None => true
      end
  end.

(** Calls that leave both bags alone. *)
Definition leaves_bags (c : internal.call) : bool :=
  match c with
  | internal.CallWithContext _ _ => false
  | internal.CallWithSDC _ _ => false
  | _ => true
  end.

Definition bags_made (b : internal.ErrProps) : Prop :=
  is_nil_map (internal.context b) = false
  /\ is_nil_map (internal.sdc b) = false.

(** The stack setting that a chain of calls leaves, if it makes one. *)
Fixpoint last_stack_setting (cs : list internal.call) : option bool :=
  match cs with
  | [] => None
  | c :: cs' =>
      match last_stack_setting cs' with
      | Some flag => Some flag
      | None =>
          match c with
          | internal.CallWithStackTrace flag => Some flag
          | _ => None
          end
      end
  end.

(** A stack of forty frames. *)
Definition deep_stack : list uintptr :=
  (fun i => 4198400 + 64 * Z.of_nat i) <$> seq 0 40.

(** The value that a chain of calls leaves under a key of the context
    bag, if one of them writes it: the last write. *)
Fixpoint context_written (cs : list internal.call) (k : string)
  : option any :=
  match cs with
  | [] => None
  | c :: cs' =>
      match context_written cs' k with
      | Some v => Some v
      | None =>
          match c with
          | internal.CallWithContext k' v =>
              if decide (k' = k) then Some v else None
          | _ => None
          end
      end
  end.

(** The same for the SDC bag. *)
Fixpoint sdc_written (cs : list internal.call) (k : string)
  : option string :=
  match cs with
  | [] => None
  | c :: cs' =>
      match sdc_written cs' k with
      | Some v => Some v
      | None =>
          match c with
          | internal.CallWithSDC k' v =>
              if decide (k' = k) then Some v else None
          | _ => None
          end
      end
  end.

(** The keys that a chain of calls writes in each bag. *)
Fixpoint context_keys (cs : list internal.call) : gset string :=
  match cs with
  | [] => ∅
  | internal.CallWithContext k _ :: cs' => {[ k ]} ∪ context_keys cs'
  | _ :: cs' => context_keys cs'
  end.

Fixpoint sdc_keys (cs : list internal.call) : gset string :=
  match cs with
  | [] => ∅
  | internal.CallWithSDC k _ :: cs' => {[ k ]} ∪ sdc_keys cs'
  | _ :: cs' => sdc_keys cs'
  end.

(** The message and the code that a chain of calls leaves. *)
Fixpoint last_message (cs : list internal.call) : option string :=
  match cs with
  | [] => None
  | c :: cs' =>
      match last_message cs' with
      | Some m => Some m
      | None =>
          match c with
          | internal.CallWithMessage m => Some m
          | _ => None
          end
      end
  end.

Fixpoint last_code (cs : list internal.call) : option string :=
  match cs with
  | [] => None
  | c :: cs' =>
      match last_code cs' with
      | Some m => Some m
      | None =>
          match c with
          | internal.CallWithCode m => Some m
          | _ => None
          end
      end
  end.

(** A frame as [StackTrace] records it. *)
Definition stacktrace_of (frame : Frame) : stacktrace :=
  {| Function := frame_Function frame;
     File := frame_File frame;
     Line := frame_Line frame |}.

(** [n] plain wrappers around an error, outermost message first. *)
Fixpoint wrap_all (msgs : list string) (e : error) : error :=
  match msgs with
  | [] => e
  | m :: msgs' => wrapError m (wrap_all msgs' e)
  end.

(** * Properties *)

(** ** Stack capture and [Build] *)

Lemma slice_prefix (a : list uintptr) (hi : Z) :
  0 <= hi <= Z.of_nat (length a) ->
  slice a 0 hi = Ok (take (Z.to_nat hi) a).
Proof.
  intros [Hlo Hhi]. unfold slice.
  replace (0 <? 0) with false by reflexivity.
  destruct (Z.ltb_spec hi 0) as [?|_]; [lia|].
  destruct (Z.ltb_spec (Z.of_nat (length a)) hi) as [?|_]; [lia|].
  cbn [orb]. rewrite Z.sub_0_r. reflexivity.
Qed.

Lemma slice_negative (a : list uintptr) (hi : Z) :
  hi < 0 -> slice a 0 hi = Panic "slice bounds out of range".
Proof.
  intros Hhi. unfold slice.
  replace (0 <? 0) with false by reflexivity.
  destruct (Z.ltb_spec hi 0) as [_|?]; [reflexivity|lia].
Qed.

Lemma callers_enough (skip : nat) (stack : list uintptr) :
  (2 <= length (drop skip stack))%nat ->
  internal.callers skip stack =
  Ok (let written := take internal.depth (drop skip stack) in
      take (length written - 2) written).
Proof.
  intros Hlen. unfold internal.callers, runtime_Callers.
  set (written := take internal.depth (drop skip stack)).
  assert (Hw : (2 <= length written <= internal.depth)%nat).
  { subst written. rewrite length_take. unfold internal.depth. lia. }
  cbv zeta. rewrite slice_prefix.
  - f_equal.
    replace (Z.to_nat (Z.of_nat (length written) - 2))
      with (length written - 2)%nat by lia.
    apply take_app_le. lia.
  - rewrite length_app, length_replicate. lia.
Qed.

Lemma callers_short (skip : nat) (stack : list uintptr) :
  (length (drop skip stack) < 2)%nat ->
  internal.callers skip stack = Panic "slice bounds out of range".
Proof.
  intros Hlen. unfold internal.callers, runtime_Callers.
  apply slice_negative. rewrite length_take. lia.
Qed.

Lemma renderedMessage_decide (m f : string) :
  (if decide (m ≠ "") then m else f) = renderedMessage m f.
Proof.
  unfold renderedMessage.
  destruct (String.eqb_spec m "") as [->|Hne].
  - destruct (decide ("" ≠ "")) as [H|_]; [contradiction H|]; reflexivity.
  - destruct (decide (m ≠ "")) as [_|H]; [reflexivity|contradiction].
Qed.

Lemma capture_returns (receiver : internal.ErrProps) (stack : list uintptr) :
  has_outer_frames receiver stack = true ->
  (if internal.withStackTrace receiver
   then internal.callers 4 stack else mret [])
  = Ok (captured receiver stack).
Proof.
  unfold has_outer_frames, captured.
  destruct (internal.withStackTrace receiver); cbn [negb orb]; intros H.
  - apply Nat.leb_le in H. rewrite callers_enough by exact H. reflexivity.
  - reflexivity.
Qed.

(** With the registered constructor, [Build] returns the structured error
    that binds the builder's state. *)
Lemma Build_registered (receiver : internal.ErrProps) (stack : list uintptr)
    (cause0 : option error) (msg : string) :
  has_outer_frames receiver stack = true ->
  internal.Build (seam true) stack receiver cause0 msg =
  Ok (Some (flooErr (flooerr.newErr
       (internal.message receiver)
       (renderedMessage (internal.message receiver) msg)
       (internal.code receiver) cause0 (captured receiver stack)
       (internal.context receiver) (internal.sdc receiver)))).
Proof.
  intros H. unfold internal.Build.
  rewrite (capture_returns _ _ H). cbn.
  rewrite renderedMessage_decide. reflexivity.
Qed.

(** With no constructor set, [Build] falls back on the cause, or on a
    [simpleError] when there is none. *)
Lemma Build_unset (receiver : internal.ErrProps) (stack : list uintptr)
    (cause0 : option error) (msg : string) :
  has_outer_frames receiver stack = true ->
  internal.Build (seam false) stack receiver cause0 msg =
  Ok (Some (match cause0 with
            | Some c => c
            | None =>
                simpleError (renderedMessage (internal.message receiver) msg)
            end)).
Proof.
  intros H. unfold internal.Build.
  rewrite (capture_returns _ _ H). cbn.
  rewrite renderedMessage_decide. destruct cause0; reflexivity.
Qed.

(** A stack too shallow for the cut makes [Build] panic, whatever the
    constructor seam holds. *)
Lemma Build_short_stack_panics (fn : option internal.BuildErrFunc)
    (receiver : internal.ErrProps) (stack : list uintptr)
    (cause0 : option error) (msg : string) :
  has_outer_frames receiver stack = false ->
  internal.Build fn stack receiver cause0 msg =
  Panic "slice bounds out of range".
Proof.
  unfold has_outer_frames, internal.Build.
  destruct (internal.withStackTrace receiver); cbn [negb orb]; intros H.
  - apply Nat.leb_gt in H. rewrite callers_short by exact H. reflexivity.
  - discriminate H.
Qed.

(** C1: with a nil cause, the built error's [Error()] is the fallback when
    the builder's message is empty, and the builder's message when it is
    not, in particular after [WithMessage m] with a non-empty [m], whatever
    the fallback; this holds with the registered constructor and with none. *)
Theorem Build_nil_cause_message (registered : bool)
    (receiver : internal.ErrProps) (f : string) (stack : list uintptr) :
  has_outer_frames receiver stack = true ->
  (internal.message receiver = "" ->
   exists e,
     internal.Build (seam registered) stack receiver None f = Ok (Some e)
     /\ error_Error e = f)
  /\ (internal.message receiver <> "" ->
      exists e,
        internal.Build (seam registered) stack receiver None f = Ok (Some e)
        /\ error_Error e = internal.message receiver)
  /\ (forall m : string, m <> "" ->
      exists e,
        internal.Build (seam registered) stack
          (internal.WithMessage receiver m) None f = Ok (Some e)
        /\ error_Error e = m).
Proof.
  intros Hstack.
  assert (Hrender : forall b : internal.ErrProps,
    has_outer_frames b stack = true ->
    exists e,
      internal.Build (seam registered) stack b None f = Ok (Some e)
      /\ error_Error e = renderedMessage (internal.message b) f).
  { intros b Hb. destruct registered.
    - rewrite Build_registered by exact Hb. eexists; split; reflexivity.
    - rewrite Build_unset by exact Hb. eexists; split; reflexivity. }
  repeat split.
  - intros Hempty. destruct (Hrender receiver Hstack) as [e [HB HE]].
    exists e. split; [exact HB|]. rewrite HE, Hempty. reflexivity.
  - intros Hset. destruct (Hrender receiver Hstack) as [e [HB HE]].
    exists e. split; [exact HB|]. rewrite HE. unfold renderedMessage.
    destruct (String.eqb_spec (internal.message receiver) "");
      [contradiction|reflexivity].
  - intros m Hm.
    destruct (Hrender (internal.WithMessage receiver m) Hstack)
      as [e [HB HE]].
    exists e. split; [exact HB|]. rewrite HE. cbn. unfold renderedMessage.
    destruct (String.eqb_spec m ""); [contradiction|reflexivity].
Qed.

Lemma Build_nil_cause_message_witness :
  (exists e,
     internal.Build (seam true) sample_stack internal.create None "X"
     = Ok (Some e) /\ error_Error e = "X")
  /\ (exists e,
        internal.Build (seam false) sample_stack
          (internal.WithMessage internal.create "Y") None "X" = Ok (Some e)
        /\ error_Error e = "Y").
Proof.
  split.
  - apply (Build_nil_cause_message true internal.create "X" sample_stack);
      reflexivity.
  - apply (Build_nil_cause_message false internal.create "X" sample_stack);
      [reflexivity | discriminate].
Defined.

(** C2: with the registered constructor, the built error's [Error()] is the
    rendered message, then the delimiter "; caused by: ", then the cause's
    [Error()] when a cause is given, and the bare rendered message when the
    cause is nil. *)
Theorem Build_Error_text (receiver : internal.ErrProps)
    (stack : list uintptr) (cause0 : option error) (msg : string) :
  has_outer_frames receiver stack = true ->
  exists x : err,
    internal.Build (seam true) stack receiver cause0 msg
    = Ok (Some (flooErr x))
    /\ errMessage x = renderedMessage (internal.message receiver) msg
    /\ flooerr.err_Unwrap x = cause0
    /\ error_Error (flooErr x) = flooerr.err_Error x
    /\ flooerr.err_Error x =
       match cause0 with
       | Some c =>
           renderedMessage (internal.message receiver) msg
           +:+ "; caused by: " +:+ error_Error c
       | None => renderedMessage (internal.message receiver) msg
       end.
Proof.
  intros Hstack. rewrite Build_registered by exact Hstack.
  eexists. split; [reflexivity|].
  repeat split.
Qed.

Lemma Build_Error_text_witness :
  exists x : err,
    internal.Build (seam true) sample_stack
      (internal.WithMessage internal.create "query failed")
      (Some (errorString "disk full")) "fallback"
    = Ok (Some (flooErr x))
    /\ flooerr.err_Error x = "query failed; caused by: disk full".
Proof.
  destruct (Build_Error_text
              (internal.WithMessage internal.create "query failed")
              sample_stack (Some (errorString "disk full")) "fallback"
              eq_refl) as [x [HB [_ [_ [_ HE]]]]].
  exists x. split; [exact HB | exact HE].
Defined.

(** C3: [Build] panics when capture is on and fewer than two entries follow
    the four skipped ones; here the builder is fresh, the cause nil and the
    constructor either unset or registered, and the stack is that of a
    goroutine whose entry function calls [Build]. *)
Theorem Build_panics_on_goroutine_entry :
  internal.Build (seam false) goroutine_entry_stack internal.create None "x"
  = Panic "slice bounds out of range"
  /\ internal.Build (seam true) goroutine_entry_stack internal.create None "x"
     = Panic "slice bounds out of range".
Proof. split; reflexivity. Qed.

(** ** Finding the structured error in a chain *)

(** Induction on error values, with the hypothesis for the cause of a
    structured error and for every child of a multi-error wrapper. *)
Lemma error_tree_ind (P : error -> Prop) :
  (forall s, P (errorString s)) ->
  (forall msg inner, P inner -> P (wrapError msg inner)) ->
  (forall msg, P (simpleError msg)) ->
  (forall x : err, (forall c, cause x = Some c -> P c) -> P (flooErr x)) ->
  (forall msg errs, Forall P errs -> P (wrapErrors msg errs)) ->
  forall e, P e.
Proof.
  intros Hs Hw Hsimple Hf Hm. fix IH 1.
  intros [s | msg inner | msg | x | msg errs].
  - apply Hs.
  - apply Hw, IH.
  - apply Hsimple.
  - apply Hf. destruct x as [m em cd [c'|] ptr st ctx sd]; cbn;
      intros c Hc; [|discriminate Hc].
    injection Hc as <-. apply IH.
  - apply Hm. induction errs as [| c l IHl]; constructor;
      [apply IH | exact IHl].
Qed.

Lemma errors_As_children (msg : string) (errs : list error) :
  flooerr.errors_As (wrapErrors msg errs)
  = head (omap flooerr.errors_As errs).
Proof.
  cbn [flooerr.errors_As].
  induction errs as [| c l IH]; [reflexivity|].
  cbn [omap list_omap]. destruct (flooerr.errors_As c); [reflexivity|].
  exact IH.
Qed.

Lemma error_tree_children (msg : string) (errs : list error) :
  flooerr.error_tree (wrapErrors msg errs)
  = wrapErrors msg errs :: (errs ≫= flooerr.error_tree).
Proof.
  reflexivity.
Qed.

(** [errors_As] is the loop of [errors.As]: test the value, else follow its
    [Unwrap() error], else search the children of its [Unwrap() []error]. *)
Lemma errors_As_step (e : error) :
  flooerr.errors_As e =
  match implements_FlooErr e with
  | Some x => Some x
  | None =>
      match errors_Unwrap e with
      | Some inner => flooerr.errors_As inner
      | None =>
          match e with
          | wrapErrors _ errs => head (omap flooerr.errors_As errs)
          | _ => None
          end
      end
  end.
Proof.
  destruct e as [s | msg inner | msg | x | msg errs]; try reflexivity.
  apply errors_As_children.
Qed.

Lemma cause_chain_step (e : error) :
  flooerr.cause_chain e =
  e :: match errors_Unwrap e with
       | Some inner => flooerr.cause_chain inner
       | None => []
       end.
Proof. destruct e; reflexivity. Qed.

(** What [errors_As] finds is the first value of the tree that implements
    the interface. *)
Lemma errors_As_tree (e : error) :
  flooerr.errors_As e
  = head (omap implements_FlooErr (flooerr.error_tree e)).
Proof.
  induction e as [s | msg inner IH | msg | x IH | msg errs IH]
    using error_tree_ind.
  - reflexivity.
  - exact IH.
  - reflexivity.
  - reflexivity.
  - rewrite errors_As_children, error_tree_children.
    cbn [omap list_omap implements_FlooErr].
    induction IH as [| c l Hc _ IHl]; [reflexivity|].
    cbn [omap list_omap mbind list_bind]. rewrite omap_app, Hc.
    destruct (omap implements_FlooErr (flooerr.error_tree c)) as [| y ys];
      [exact IHl | reflexivity].
Qed.

Lemma omap_all_None {A B : Type} (f : A -> option B) (pre l : list A) :
  Forall (fun a => f a = None) pre -> omap f (pre ++ l) = omap f l.
Proof.
  induction 1 as [| a pre Ha _ IH]; [reflexivity|].
  cbn [app omap list_omap]. rewrite Ha. exact IH.
Qed.

Lemma errors_As_all_plain (e : error) :
  Forall plain (flooerr.error_tree e) -> flooerr.errors_As e = None.
Proof.
  intros Hall. rewrite errors_As_tree.
  rewrite <- (app_nil_r (flooerr.error_tree e)).
  rewrite (omap_all_None implements_FlooErr _ [] Hall). reflexivity.
Qed.




(** ** [Parse] *)

(** C5: [Parse] of nil is the zero snapshot with [IsFlooErr] false; of an
    error in which [AsFlooErr] finds nothing, the zero snapshot but for
    [ErrorMsg], the error's [Error()]; of an error in which it finds [fe],
    the snapshot of [fe]'s accessors with [IsFlooErr] true. The scenario of
    the specification follows: code, context, SDC and cause come back from
    an error built with them. *)
Theorem Parse_snapshot (CallersFrames : list uintptr -> list Frame) :
  fst (flooerr.Parse CallersFrames None) = zeroErrorInfo
  /\ (forall e : error,
        flooerr.AsFlooErr (Some e) = (None, false) ->
        fst (flooerr.Parse CallersFrames (Some e)) =
        ErrorInfo.mk "" "" (error_Error e) nil_map nil_map [] None false)
  /\ (forall (e : error) (fe : err),
        flooerr.AsFlooErr (Some e) = (Some fe, true) ->
        fst (flooerr.Parse CallersFrames (Some e)) =
        ErrorInfo.mk (flooerr.err_Code fe) (flooerr.err_Message fe)
          (flooerr.err_Error fe) (flooerr.err_Context fe)
          (flooerr.err_SDC fe)
          (fst (flooerr.err_StackTrace CallersFrames fe))
          (flooerr.err_Unwrap fe) true)
  /\ (forall stack : list uintptr,
        (2 <= length (drop 4 stack))%nat ->
        exists (b : internal.ErrProps) (e : error),
          (b1 ← internal.WithContext
                  (internal.WithCode internal.create "DB_ERR")
                  "host" (any_string "localhost");
           internal.WithSDC b1 "trace_id" "t1") = Ok b
          /\ internal.Build (seam true) stack b
               (Some (errorString "disk full")) "query failed"
             = Ok (Some e)
          /\ let info := fst (flooerr.Parse CallersFrames (Some e)) in
             ErrorInfo.IsFlooErr info = true
             /\ ErrorInfo.Code info = "DB_ERR"
             /\ ErrorInfo.Context info
                = make_map {[ "host" := any_string "localhost" ]}
             /\ ErrorInfo.SDC info = make_map {[ "trace_id" := "t1" ]}
             /\ error_Error <$> ErrorInfo.Cause info = Some "disk full").
Proof.
  split; [reflexivity|]. split; [|split].
  - intros e Hnone. unfold flooerr.Parse. rewrite Hnone. reflexivity.
  - intros e fe Hsome. unfold flooerr.Parse. rewrite Hsome.
    destruct (flooerr.err_StackTrace CallersFrames fe) as [st fe'].
    reflexivity.
  - intros stack Hstack. eexists. eexists. split; [reflexivity|].
    split.
    + apply Build_registered. unfold has_outer_frames. cbn [negb orb].
      apply Nat.leb_le in Hstack. rewrite Hstack. apply orb_true_r.
    + cbv zeta. unfold flooerr.Parse.
      cbn [flooerr.AsFlooErr flooerr.errors_As].
      destruct (flooerr.err_StackTrace CallersFrames _) as [st fe'].
      cbn. repeat split.
Qed.

Lemma Parse_snapshot_witness :
  fst (flooerr.Parse (fun _ => []) (Some disk_full)) =
  ErrorInfo.mk "" "" "disk full" nil_map nil_map [] None false
  /\ fst (flooerr.Parse (fun _ => []) (Some (wrapError "io" (flooErr db_err))))
     = ErrorInfo.mk "DB_ERR" "" "query failed; caused by: disk full"
         (make_map {[ "host" := any_string "localhost" ]})
         (make_map {[ "trace_id" := "t1" ]}) [] (Some disk_full) true
  /\ exists (b : internal.ErrProps) (e : error),
       internal.Build (seam true) sample_stack b
         (Some (errorString "disk full")) "query failed" = Ok (Some e)
       /\ ErrorInfo.Code (fst (flooerr.Parse (fun _ => []) (Some e)))
          = "DB_ERR".
Proof.
  destruct (Parse_snapshot (fun _ => [])) as [_ [Hnone [Hsome Hscen]]].
  split; [|split].
  - apply (Hnone disk_full). reflexivity.
  - apply (Hsome (wrapError "io" (flooErr db_err)) db_err). reflexivity.
  - destruct (Hscen sample_stack) as [b [e [_ [HB [_ [HC _]]]]]].
    + cbn. lia.
    + exists b, e. split; [exact HB | exact HC].
Defined.

(** ** Walking the chain *)

Lemma UnwrapChain_loop_step (fuel : nat) (e : error) (chain : list error) :
  flooerr.UnwrapChain_loop (S fuel) (Some e) chain =
  flooerr.UnwrapChain_loop fuel (unwrap_link e) (chain ++ [e]).
Proof.
  cbn [flooerr.UnwrapChain_loop]. unfold unwrap_link.
  destruct (flooerr.AsFlooErr (Some e)) as [[fe|] [|]]; reflexivity.
Qed.

Lemma height_child (msg : string) (errs : list error) (c : error) :
  c ∈ errs -> (flooerr.height c < flooerr.height (wrapErrors msg errs))%nat.
Proof.
  intros Hin. cbn [flooerr.height]. apply Nat.lt_succ_r.
  induction Hin as [c l | c d l _ IH]; lia.
Qed.

Lemma errors_As_links (e : error) (fe : err) :
  flooerr.errors_As e = Some fe ->
  (links (Some (flooErr fe)) <= links (Some e))%nat.
Proof.
  unfold links.
  induction e as [s | msg inner IH | msg | x IH | msg errs IH]
    using error_tree_ind; intros Hfound.
  - discriminate Hfound.
  - cbn in Hfound. specialize (IH Hfound). cbn in IH |- *. lia.
  - discriminate Hfound.
  - cbn in Hfound. injection Hfound as ->. lia.
  - rewrite errors_As_children in Hfound.
    assert (Hchild : exists c, c ∈ errs /\ flooerr.errors_As c = Some fe).
    { clear IH. induction errs as [| c l IHl]; [discriminate Hfound|].
      cbn [omap list_omap] in Hfound.
      destruct (flooerr.errors_As c) as [y|] eqn:Hc.
      - cbn in Hfound. injection Hfound as ->. exists c.
        split; [left | exact Hc].
      - destruct (IHl Hfound) as [d [Hd Hfd]]. exists d.
        split; [right; exact Hd | exact Hfd]. }
    destruct Hchild as [c [Hin Hc]].
    rewrite Forall_forall in IH. specialize (IH c Hin Hc).
    pose proof (height_child msg errs c Hin). lia.
Qed.

(** Each step leaves strictly fewer links ahead. *)
Lemma unwrap_link_links (e : error) :
  (links (unwrap_link e) < links (Some e))%nat.
Proof.
  unfold unwrap_link, flooerr.AsFlooErr.
  destruct (flooerr.errors_As e) as [fe|] eqn:Hfound.
  - pose proof (errors_As_links e fe Hfound) as Hle.
    unfold flooerr.err_Unwrap. cbn in Hle |- *.
    destruct (cause fe) as [c|]; cbn in Hle |- *; lia.
  - destruct e as [s | msg inner | msg | x | msg errs]; cbn; try lia.
    discriminate Hfound.
Qed.

Lemma links_pos (e : error) : (0 < links (Some e))%nat.
Proof. destruct e; cbn; lia. Qed.

(** The loop ends on every error: with a unit of fuel per link ahead it
    returns, and what it appends to the chain depends on neither the fuel
    nor the chain so far. *)
Lemma UnwrapChain_loop_returns (n : nat) :
  forall current : option error,
    (links current <= n)%nat ->
    exists walked : list error,
      forall (fuel : nat) (chain : list error),
        (links current <= fuel)%nat ->
        flooerr.UnwrapChain_loop fuel current chain = Some (chain ++ walked).
Proof.
  induction n as [| n IH]; intros [e|] Hn.
  - pose proof (links_pos e). lia.
  - exists []. intros [| fuel] chain _; cbn; rewrite app_nil_r; reflexivity.
  - pose proof (unwrap_link_links e) as Hlt.
    destruct (IH (unwrap_link e)) as [walked Hwalked]; [lia|].
    exists (e :: walked). intros [| fuel] chain Hfuel;
      [pose proof (links_pos e); lia|].
    rewrite UnwrapChain_loop_step, Hwalked by lia.
    rewrite <- app_assoc. reflexivity.
  - exists []. intros [| fuel] chain _; cbn; rewrite app_nil_r; reflexivity.
Qed.

Lemma UnwrapChain_loop_total (current : option error) (fuel : nat)
    (chain : list error) :
  (links current <= fuel)%nat ->
  flooerr.UnwrapChain_loop fuel current chain =
  Some (chain ++ flooerr.UnwrapChain current).
Proof.
  intros Hfuel.
  destruct (UnwrapChain_loop_returns (links current) current (le_n _))
    as [walked Hwalked].
  rewrite (Hwalked fuel chain Hfuel). do 2 f_equal.
  destruct current as [e|].
  - unfold flooerr.UnwrapChain, flooerr.UnwrapChain_fuel.
    rewrite (Hwalked (flooerr.height e) [] (le_n _)).
    reflexivity.
  - specialize (Hwalked O [] (le_n _)). cbn in Hwalked.
    injection Hwalked as <-. reflexivity.
Qed.

Lemma UnwrapChain_unfold (e : error) :
  flooerr.UnwrapChain (Some e) = e :: flooerr.UnwrapChain (unwrap_link e).
Proof.
  pose proof (unwrap_link_links e) as Hlt.
  pose proof (UnwrapChain_loop_total (Some e) (links (Some e)) [] (le_n _))
    as Hrun.
  destruct (links (Some e)) as [| n] eqn:Hlinks; [lia|].
  rewrite UnwrapChain_loop_step in Hrun.
  rewrite UnwrapChain_loop_total in Hrun by lia.
  injection Hrun as Hrun. cbn in Hrun. symmetry. exact Hrun.
Qed.

(** C6: [UnwrapChain] does not return the chain of a plain wrapper around
    a structured error. The chain of [fmt.Errorf("io: %w", e)] for a
    structured [e] with a cause is the wrapper, [e], then the cause;
    [AsFlooErr] finds [e] in the wrapper and the loop goes on from the cause
    of [e], so [e] is missing from the result. When [e] has no cause, the
    result is the wrapper alone and [GetRootCause] returns the wrapper, not
    the deepest error [e]. *)
Theorem UnwrapChain_skips_wrapped_FlooErr :
  flooerr.cause_chain (fmt_Errorf_w "io: " (flooErr db_err))
  = [fmt_Errorf_w "io: " (flooErr db_err); flooErr db_err; disk_full]
  /\ flooerr.UnwrapChain (Some (fmt_Errorf_w "io: " (flooErr db_err)))
     = [fmt_Errorf_w "io: " (flooErr db_err); disk_full]
  /\ flooerr.cause_chain (fmt_Errorf_w "io: " (flooErr lone_err))
     = [fmt_Errorf_w "io: " (flooErr lone_err); flooErr lone_err]
  /\ flooerr.UnwrapChain (Some (fmt_Errorf_w "io: " (flooErr lone_err)))
     = [fmt_Errorf_w "io: " (flooErr lone_err)]
  /\ flooerr.GetRootCause (Some (fmt_Errorf_w "io: " (flooErr lone_err)))
     = Some (fmt_Errorf_w "io: " (flooErr lone_err))
  /\ errors_Unwrap (fmt_Errorf_w "io: " (flooErr lone_err))
     = Some (flooErr lone_err).
Proof. repeat split. Qed.

(** The three-link chain of the tests, structured over structured over
    plain, comes back whole, and its root is the plain error. *)
Example UnwrapChain_three_links :
  flooerr.UnwrapChain (Some (flooErr top_err))
  = [flooErr top_err; flooErr db_err; disk_full]
  /\ flooerr.GetRootCause (Some (flooErr top_err)) = Some disk_full.
Proof. split; reflexivity. Qed.

(** A join is walked the same way: from the join the loop goes to the cause
    of the structured error found among its errors. *)
Example UnwrapChain_through_join :
  flooerr.UnwrapChain
    (errors_Join [Some (errorString "other"); Some (flooErr db_err)])
  = [wrapErrors ("other" +:+ newline +:+ "query failed; caused by: disk full")
       [errorString "other"; flooErr db_err];
     disk_full].
Proof. reflexivity. Qed.

(** Where no structured error sits below a plain wrapper, [AsFlooErr]
    matches a link exactly when the link is structured itself, and the walk
    is the cause chain. *)
Lemma UnwrapChain_cause_chain (n : nat) :
  forall e : error,
    (length (flooerr.cause_chain e) <= n)%nat ->
    no_wrapped_FlooErr e = true ->
    flooerr.UnwrapChain (Some e) = flooerr.cause_chain e.
Proof.
  induction n as [| n IH]; intros e Hn Hplain.
  - rewrite (cause_chain_step e) in Hn. cbn in Hn. lia.
  - rewrite UnwrapChain_unfold. unfold unwrap_link, flooerr.AsFlooErr.
    destruct e as [s | msg inner | msg | x | msg errs]; try reflexivity.
    + cbn in Hplain, Hn |- *.
      destruct (flooerr.errors_As inner); [discriminate Hplain|].
      cbn. f_equal. apply IH; [lia | exact Hplain].
    + cbn in Hplain, Hn |- *. unfold flooerr.err_Unwrap.
      destruct (cause x) as [c|]; [|reflexivity].
      f_equal. apply IH; [cbn in Hn; lia | exact Hplain].
    + cbn [no_wrapped_FlooErr] in Hplain.
      destruct (flooerr.errors_As (wrapErrors msg errs));
        [discriminate Hplain | reflexivity].
Qed.

(** ** The maps of a builder and of what it builds *)

Lemma run_call_bags_made (b : internal.ErrProps) (c : internal.call) :
  bags_made b ->
  exists b', internal.run_call b c = Ok b' /\ bags_made b'
    /\ (leaves_bags c = true ->
        internal.context b' = internal.context b
        /\ internal.sdc b' = internal.sdc b).
Proof.
  intros [Hctx Hsdc]. destruct b as [m cd st ctx s]. cbn in Hctx, Hsdc.
  destruct c as [msg | c' | flag | k v | k v]; cbn.
  - eexists; repeat split; assumption.
  - eexists; repeat split; assumption.
  - eexists; repeat split; assumption.
  - destruct ctx as [| g]; [discriminate Hctx|]. cbn.
    eexists; split; [reflexivity|]. split; [split; [reflexivity|exact Hsdc]|].
    discriminate.
  - destruct s as [| g]; [discriminate Hsdc|]. cbn.
    eexists; split; [reflexivity|]. split; [split; [exact Hctx|reflexivity]|].
    discriminate.
Qed.

Lemma run_chain_bags_made (cs : list internal.call) :
  forall b : internal.ErrProps,
    bags_made b ->
    exists b', internal.run_chain b cs = Ok b' /\ bags_made b'
      /\ (forallb leaves_bags cs = true ->
          internal.context b' = internal.context b
          /\ internal.sdc b' = internal.sdc b).
Proof.
  induction cs as [| c cs IH]; intros b Hb.
  - exists b. repeat split; try reflexivity; apply Hb.
  - destruct (run_call_bags_made b c Hb) as [b1 [Hrun [Hb1 Hsame1]]].
    destruct (IH b1 Hb1) as [b' [Hchain [Hb' Hsame]]].
    exists b'. split; [|split].
    + cbn. rewrite Hrun. exact Hchain.
    + exact Hb'.
    + cbn. intros Hall. apply andb_true_iff in Hall as [Hc Hcs].
      destruct (Hsame1 Hc) as [Hc1 Hs1]. destruct (Hsame Hcs) as [Hc2 Hs2].
      split; congruence.
Qed.

(** C7: whatever chain of configuration calls runs on a created builder, the
    calls return and the builder's context and SDC maps are made maps, not
    nil; the error built from it answers [Context()] and [SDC()] with made
    maps, and with made maps of length zero when the chain held no
    [WithContext] or [WithSDC] call. *)
Theorem bags_never_nil (cs : list internal.call) :
  exists b : internal.ErrProps,
    internal.run_chain internal.Create cs = Ok b
    /\ is_nil_map (internal.context b) = false
    /\ is_nil_map (internal.sdc b) = false
    /\ forall (stack : list uintptr) (cause0 : option error) (msg : string),
         has_outer_frames b stack = true ->
         exists x : err,
           internal.Build (seam true) stack b cause0 msg
           = Ok (Some (flooErr x))
           /\ is_nil_map (flooerr.err_Context x) = false
           /\ is_nil_map (flooerr.err_SDC x) = false
           /\ (forallb leaves_bags cs = true ->
               map_len (flooerr.err_Context x) = O
               /\ map_len (flooerr.err_SDC x) = O).
Proof.
  assert (Hcreate : bags_made internal.Create) by (split; reflexivity).
  destruct (run_chain_bags_made cs internal.Create Hcreate)
    as [b [Hrun [[Hctx Hsdc] Hsame]]].
  exists b. split; [exact Hrun|]. split; [exact Hctx|]. split; [exact Hsdc|].
  intros stack cause0 msg Hstack.
  rewrite Build_registered by exact Hstack.
  eexists. split; [reflexivity|]. cbn.
  split; [exact Hctx|]. split; [exact Hsdc|].
  intros Hall. destruct (Hsame Hall) as [-> ->]. split; reflexivity.
Qed.

Lemma bags_never_nil_witness :
  exists x : err,
    internal.Build (seam true) sample_stack
      (internal.WithCode internal.Create "E1") None "fresh"
    = Ok (Some (flooErr x))
    /\ is_nil_map (flooerr.err_Context x) = false
    /\ is_nil_map (flooerr.err_SDC x) = false
    /\ map_len (flooerr.err_Context x) = O
    /\ map_len (flooerr.err_SDC x) = O.
Proof.
  destruct (bags_never_nil [internal.CallWithCode "E1"])
    as [b [Hrun [_ [_ Hbuild]]]].
  cbn in Hrun. injection Hrun as <-.
  destruct (Hbuild sample_stack None "fresh" eq_refl)
    as [x [HB [Hctx [Hsdc Hlen]]]].
  destruct (Hlen eq_refl) as [Hlc Hls].
  exists x. repeat split; assumption.
Defined.

(** ** The stack trace *)

(** The loop of [StackTrace], step by step on the iterator: one call of
    [Next], then the test of [more]. *)
Lemma StackTrace_loop_Next (frames : list Frame) (traces : list stacktrace) :
  flooerr.StackTrace_loop frames traces =
  let '(frame, more, rest) := Frames_Next frames in
  if more
  then flooerr.StackTrace_loop rest
         (traces ++ [ {| Function := frame_Function frame;
                         File := frame_File frame;
                         Line := frame_Line frame |} ])
  else traces.
Proof. destruct frames as [| f [| g rest]]; reflexivity. Qed.

Lemma run_chain_withStackTrace (cs : list internal.call) :
  forall b b' : internal.ErrProps,
    internal.run_chain b cs = Ok b' ->
    internal.withStackTrace b' =
    default (internal.withStackTrace b) (last_stack_setting cs).
Proof.
  induction cs as [| c cs IH]; intros b b' Hrun.
  - cbn in Hrun. injection Hrun as <-. reflexivity.
  - cbn in Hrun. destruct (internal.run_call b c) as [b1|reason] eqn:Hcall;
      cbn in Hrun; [|discriminate Hrun].
    rewrite (IH b1 b' Hrun). cbn [last_stack_setting].
    destruct (last_stack_setting cs) as [flag|]; [reflexivity|].
    destruct c as [msg | c' | flag | k v | k v]; cbn in Hcall.
    + injection Hcall as <-. reflexivity.
    + injection Hcall as <-. reflexivity.
    + injection Hcall as <-. reflexivity.
    + unfold internal.WithContext in Hcall.
      destruct (map_assign (internal.context b) k v); cbn in Hcall;
        [|discriminate Hcall].
      injection Hcall as <-. reflexivity.
    + unfold internal.WithSDC in Hcall.
      destruct (map_assign (internal.sdc b) k v); cbn in Hcall;
        [|discriminate Hcall].
      injection Hcall as <-. reflexivity.
Qed.

Lemma err_StackTrace_cases (CallersFrames : list uintptr -> list Frame)
    (e : err) :
  flooerr.err_StackTrace CallersFrames e =
  match stackTrace e with
  | _ :: _ => (stackTrace e, e)
  | [] =>
      match stackTracePTR e with
      | [] => ([], e)
      | _ :: _ =>
          let traces :=
            flooerr.StackTrace_loop (CallersFrames (stackTracePTR e)) [] in
          (traces, flooerr.set_stackTrace e traces)
      end
  end.
Proof.
  unfold flooerr.err_StackTrace.
  destruct (stackTrace e); destruct (stackTracePTR e); reflexivity.
Qed.

(** C8: on every error value, a second [StackTrace()] returns the sequence
    that the first returned and leaves the value as the first left it; and
    when the last stack setting of the chain that configured a builder is
    [WithStackTrace(false)], the built error's [StackTrace()] is empty. *)
Theorem StackTrace_twice (CallersFrames : list uintptr -> list Frame) :
  (forall e : err,
     let first := flooerr.err_StackTrace CallersFrames e in
     let second := flooerr.err_StackTrace CallersFrames (snd first) in
     fst second = fst first /\ snd second = snd first)
  /\ (forall (cs : list internal.call) (b0 b : internal.ErrProps)
        (stack : list uintptr) (cause0 : option error) (msg : string),
        internal.run_chain b0 cs = Ok b ->
        last_stack_setting cs = Some false ->
        exists x : err,
          internal.Build (seam true) stack b cause0 msg
          = Ok (Some (flooErr x))
          /\ fst (flooerr.err_StackTrace CallersFrames x) = []).
Proof.
  split.
  - intros e. cbv zeta. rewrite (err_StackTrace_cases CallersFrames e).
    destruct (stackTrace e) as [| t ts] eqn:Hcache;
      [destruct (stackTracePTR e) as [| pc pcs] eqn:Hptr|].
    + cbn [fst snd]. rewrite err_StackTrace_cases, Hcache, Hptr.
      split; reflexivity.
    + cbv zeta. cbn [fst snd]. rewrite err_StackTrace_cases.
      cbn [flooerr.set_stackTrace stackTrace stackTracePTR].
      destruct (flooerr.StackTrace_loop (CallersFrames (pc :: pcs)) [])
        as [| t ts] eqn:Htraces.
      * rewrite Hptr, Htraces. split; reflexivity.
      * split; reflexivity.
    + cbn [fst snd]. rewrite err_StackTrace_cases, Hcache.
      split; reflexivity.
  - intros cs b0 b stack cause0 msg Hrun Hlast.
    pose proof (run_chain_withStackTrace cs b0 b Hrun) as Hflag.
    rewrite Hlast in Hflag. cbn in Hflag.
    assert (Hstack : has_outer_frames b stack = true).
    { unfold has_outer_frames. rewrite Hflag. reflexivity. }
    rewrite Build_registered by exact Hstack.
    eexists. split; [reflexivity|].
    unfold captured. rewrite Hflag. reflexivity.
Qed.

Lemma StackTrace_twice_witness :
  exists x : err,
    internal.Build (seam true) goroutine_entry_stack
      (internal.WithStackTrace internal.Create false) None "quiet"
    = Ok (Some (flooErr x))
    /\ fst (flooerr.err_StackTrace (fun _ => []) x) = [].
Proof.
  destruct (StackTrace_twice (fun _ => [])) as [_ Hoff].
  apply (Hoff [internal.CallWithStackTrace false] internal.Create);
    reflexivity.
Defined.

(** ** The depth of the recorded stack *)

Lemma recorded_length (stack : list uintptr) :
  length (recorded stack)
  = (Nat.min internal.depth (length (drop 4 stack)) - 2)%nat.
Proof.
  unfold recorded. cbv zeta. rewrite !length_take. lia.
Qed.

(** C9, as stated, fails: on a stack of forty frames the recorded capture
    holds thirteen pcs, and no call of [Build] records fifteen. *)
Lemma recorded_depth_fifteen_unreachable :
  (exists x : err,
     internal.Build (seam true) deep_stack internal.Create None "deep"
     = Ok (Some (flooErr x))
     /\ length (stackTracePTR x) = 13%nat)
  /\ ~ (exists (b : internal.ErrProps) (stack : list uintptr)
          (cause0 : option error) (msg : string) (x : err),
          internal.Build (seam true) stack b cause0 msg
          = Ok (Some (flooErr x))
          /\ length (stackTracePTR x) = 15%nat).
Proof.
  split.
  - eexists. split; reflexivity.
  - intros [b [stack [cause0 [msg [x [HB Hlen]]]]]].
    destruct (has_outer_frames b stack) eqn:Hstack.
    + rewrite Build_registered in HB by exact Hstack.
      injection HB as <-. cbn in Hlen. unfold captured in Hlen.
      destruct (internal.withStackTrace b).
      * rewrite recorded_length in Hlen. unfold internal.depth in Hlen. lia.
      * discriminate Hlen.
    + rewrite Build_short_stack_panics in HB by exact Hstack.
      discriminate HB.
Qed.

(** C9, amended: with capture on and at least two entries after the four
    skipped ones, [Build] records those entries, as many as the buffer of
    fifteen takes, less the last two; so at most thirteen, and thirteen is
    reached. *)
Theorem recorded_depth_ceiling :
  (forall (b : internal.ErrProps) (stack : list uintptr)
      (cause0 : option error) (msg : string),
      internal.withStackTrace b = true ->
      (2 <= length (drop 4 stack))%nat ->
      exists x : err,
        internal.Build (seam true) stack b cause0 msg = Ok (Some (flooErr x))
        /\ stackTracePTR x = recorded stack
        /\ stackTracePTR x `prefix_of` drop 4 stack
        /\ length (stackTracePTR x)
           = (Nat.min 15 (length (drop 4 stack)) - 2)%nat
        /\ (length (stackTracePTR x) <= 13)%nat)
  /\ (exists (stack : list uintptr) (x : err),
        internal.Build (seam true) stack internal.Create None ""
        = Ok (Some (flooErr x))
        /\ length (stackTracePTR x) = 13%nat).
Proof.
  split.
  - intros b stack cause0 msg Hon Hlen.
    assert (Hstack : has_outer_frames b stack = true).
    { unfold has_outer_frames. apply Nat.leb_le in Hlen. rewrite Hlen.
      apply orb_true_r. }
    rewrite Build_registered by exact Hstack.
    eexists. split; [reflexivity|]. cbn [stackTracePTR flooerr.newErr].
    unfold captured. rewrite Hon.
    split; [reflexivity|]. split; [|split].
    + unfold recorded. cbv zeta.
      etrans; [apply prefix_take | apply prefix_take].
    + apply recorded_length.
    + rewrite recorded_length. unfold internal.depth. lia.
  - exists deep_stack. eexists. split; reflexivity.
Qed.

Lemma recorded_depth_ceiling_witness :
  exists x : err,
    internal.Build (seam true) sample_stack internal.Create None "shallow"
    = Ok (Some (flooErr x))
    /\ stackTracePTR x = [4198656].
Proof.
  destruct recorded_depth_ceiling as [Hrec _].
  destruct (Hrec internal.Create sample_stack None "shallow" eq_refl)
    as [x [HB [Hptr _]]].
  - cbn. lia.
  - exists x. split; [exact HB | exact Hptr].
Defined.

(** ** The constructor [SDC] *)

(** C10: [SDC k v] returns a builder whose SDC bag is made and empty and
    whose context bag holds [v] under [k] and nothing else; an error built
    from it has an [SDC()] of length zero and a [Context()] with [k]. *)
Theorem SDC_fills_context (k : string) (v : gomap string) :
  exists b : internal.ErrProps,
    flooerr.SDC k v = Ok b
    /\ b = {| internal.message := ""; internal.code := "";
              internal.withStackTrace := true;
              internal.context := make_map {[ k := any_strmap v ]};
              internal.sdc := make_map ∅ |}
    /\ flooerr.SDC k v = internal.WithContext internal.Create k (any_strmap v)
    /\ is_nil_map (internal.sdc b) = false
    /\ map_len (internal.sdc b) = O
    /\ map_index (internal.context b) k = Some (any_strmap v)
    /\ map_len (internal.context b) = 1%nat
    /\ forall (stack : list uintptr) (cause0 : option error) (msg : string),
         has_outer_frames b stack = true ->
         exists x : err,
           internal.Build (seam true) stack b cause0 msg
           = Ok (Some (flooErr x))
           /\ map_len (flooerr.err_SDC x) = O
           /\ map_index (flooerr.err_Context x) k = Some (any_strmap v).
Proof.
  eexists. split; [reflexivity|]. split; [reflexivity|].
  split; [reflexivity|]. split; [reflexivity|]. split; [reflexivity|].
  split; [|split].
  - cbn. apply lookup_insert_eq.
  - cbn. rewrite insert_empty. apply map_size_singleton.
  - intros stack cause0 msg Hstack.
    rewrite Build_registered by exact Hstack.
    eexists. split; [reflexivity|]. split; [reflexivity|].
    cbn. apply lookup_insert_eq.
Qed.

Lemma SDC_fills_context_witness :
  exists x : err,
    (b ← flooerr.SDC "trace" (make_map {[ "id" := "t1" ]});
     internal.Build (seam true) sample_stack b None "failed")
    = Ok (Some (flooErr x))
    /\ map_len (flooerr.err_SDC x) = O
    /\ map_index (flooerr.err_Context x) "trace"
       = Some (any_strmap (make_map {[ "id" := "t1" ]})).
Proof.
  destruct (SDC_fills_context "trace" (make_map {[ "id" := "t1" ]}))
    as [b [Hb [_ [_ [_ [_ [_ [_ Hbuild]]]]]]]].
  cbn in Hb. injection Hb as <-.
  destruct (Hbuild sample_stack None "failed" eq_refl) as [x [HB [Hs Hc]]].
  exists x. split; [exact HB|]. split; [exact Hs | exact Hc].
Defined.

(** * Further properties *)

(** ** What a chain of calls leaves in the builder *)

Lemma run_call_context (b b1 : internal.ErrProps) (c : internal.call)
    (g : gmap string any) :
  internal.run_call b c = Ok b1 ->
  internal.context b = make_map g ->
  internal.context b1 =
  make_map match c with
           | internal.CallWithContext k v => <[k := v]> g
           | _ => g
           end.
Proof.
  intros Hcall Hctx.
  destruct c as [msg | c' | flag | k v | k v]; cbn in Hcall.
  - injection Hcall as <-. exact Hctx.
  - injection Hcall as <-. exact Hctx.
  - injection Hcall as <-. exact Hctx.
  - unfold internal.WithContext in Hcall. rewrite Hctx in Hcall.
    cbn in Hcall. injection Hcall as <-. reflexivity.
  - unfold internal.WithSDC in Hcall.
    destruct (map_assign (internal.sdc b) k v); cbn in Hcall;
      [|discriminate Hcall].
    injection Hcall as <-. exact Hctx.
Qed.

Lemma run_call_sdc (b b1 : internal.ErrProps) (c : internal.call)
    (g : gmap string string) :
  internal.run_call b c = Ok b1 ->
  internal.sdc b = make_map g ->
  internal.sdc b1 =
  make_map match c with
           | internal.CallWithSDC k v => <[k := v]> g
           | _ => g
           end.
Proof.
  intros Hcall Hsdc.
  destruct c as [msg | c' | flag | k v | k v]; cbn in Hcall.
  - injection Hcall as <-. exact Hsdc.
  - injection Hcall as <-. exact Hsdc.
  - injection Hcall as <-. exact Hsdc.
  - unfold internal.WithContext in Hcall.
    destruct (map_assign (internal.context b) k v); cbn in Hcall;
      [|discriminate Hcall].
    injection Hcall as <-. exact Hsdc.
  - unfold internal.WithSDC in Hcall. rewrite Hsdc in Hcall.
    cbn in Hcall. injection Hcall as <-. reflexivity.
Qed.

Lemma run_chain_context (cs : list internal.call) :
  forall (b b' : internal.ErrProps) (g : gmap string any),
    internal.run_chain b cs = Ok b' ->
    internal.context b = make_map g ->
    exists g' : gmap string any,
      internal.context b' = make_map g'
      /\ (forall k, g' !! k = match context_written cs k with
                              | Some v => Some v
                              | None => g !! k
                              end)
      /\ dom g' = dom g ∪ context_keys cs.
Proof.
  induction cs as [| c cs IH]; intros b b' g Hrun Hctx.
  - cbn in Hrun. injection Hrun as <-. exists g.
    split; [exact Hctx|]. split; [reflexivity|]. cbn. set_solver.
  - cbn in Hrun. destruct (internal.run_call b c) as [b1|reason] eqn:Hcall;
      cbn in Hrun; [|discriminate Hrun].
    pose proof (run_call_context b b1 c g Hcall Hctx) as Hctx1.
    destruct (IH b1 b' _ Hrun Hctx1) as [g' [Hctx' [Hlook Hdom]]].
    exists g'. split; [exact Hctx'|]. split.
    + intros k. rewrite Hlook. cbn [context_written].
      destruct (context_written cs k) as [v|]; [reflexivity|].
      destruct c as [msg | c' | flag | k' v' | k' v']; try reflexivity.
      destruct (decide (k' = k)) as [->|Hne].
      * apply lookup_insert_eq.
      * apply lookup_insert_ne. exact Hne.
    + rewrite Hdom.
      destruct c as [msg | c' | flag | k' v' | k' v']; cbn; try reflexivity.
      rewrite dom_insert_L. set_solver.
Qed.

Lemma run_chain_sdc (cs : list internal.call) :
  forall (b b' : internal.ErrProps) (g : gmap string string),
    internal.run_chain b cs = Ok b' ->
    internal.sdc b = make_map g ->
    exists g' : gmap string string,
      internal.sdc b' = make_map g'
      /\ (forall k, g' !! k = match sdc_written cs k with
                              | Some v => Some v
                              | None => g !! k
                              end)
      /\ dom g' = dom g ∪ sdc_keys cs.
Proof.
  induction cs as [| c cs IH]; intros b b' g Hrun Hsdc.
  - cbn in Hrun. injection Hrun as <-. exists g.
    split; [exact Hsdc|]. split; [reflexivity|]. cbn. set_solver.
  - cbn in Hrun. destruct (internal.run_call b c) as [b1|reason] eqn:Hcall;
      cbn in Hrun; [|discriminate Hrun].
    pose proof (run_call_sdc b b1 c g Hcall Hsdc) as Hsdc1.
    destruct (IH b1 b' _ Hrun Hsdc1) as [g' [Hsdc' [Hlook Hdom]]].
    exists g'. split; [exact Hsdc'|]. split.
    + intros k. rewrite Hlook. cbn [sdc_written].
      destruct (sdc_written cs k) as [v|]; [reflexivity|].
      destruct c as [msg | c' | flag | k' v' | k' v']; try reflexivity.
      destruct (decide (k' = k)) as [->|Hne].
      * apply lookup_insert_eq.
      * apply lookup_insert_ne. exact Hne.
    + rewrite Hdom.
      destruct c as [msg | c' | flag | k' v' | k' v']; cbn; try reflexivity.
      rewrite dom_insert_L. set_solver.
Qed.

(** X1: the context of an error built after a chain of calls on a created
    builder holds, under each key, the value of the last [WithContext] for
    that key and nothing else; [GetContextValue] and [HasContextKey] read it
    back, with nil and false for a key that no call wrote. *)
Theorem context_last_write_wins (cs : list internal.call)
    (b : internal.ErrProps) (stack : list uintptr) (cause0 : option error)
    (msg : string) :
  internal.run_chain internal.Create cs = Ok b ->
  has_outer_frames b stack = true ->
  exists x : err,
    internal.Build (seam true) stack b cause0 msg = Ok (Some (flooErr x))
    /\ forall k : string,
         map_index (flooerr.err_Context x) k = context_written cs k
         /\ flooerr.GetContextValue (Some (flooErr x)) k
            = default any_nil (context_written cs k)
         /\ flooerr.HasContextKey (Some (flooErr x)) k
            = bool_decide (is_Some (context_written cs k)).
Proof.
  intros Hrun Hstack.
  destruct (run_chain_context cs internal.Create b ∅ Hrun eq_refl)
    as [g [Hctx [Hlook _]]].
  assert (Hk : forall k, g !! k = context_written cs k).
  { intros k. rewrite Hlook.
    destruct (context_written cs k); [reflexivity | apply lookup_empty]. }
  rewrite Build_registered by exact Hstack.
  eexists. split; [reflexivity|]. intros k.
  unfold flooerr.GetContextValue, flooerr.HasContextKey, flooerr.GetContext.
  cbn. rewrite Hctx. cbn. rewrite Hk. repeat split.
Qed.

Lemma context_last_write_wins_witness :
  exists x : err,
    (b ← internal.WithContext internal.Create "host" (any_string "a");
     b ← internal.WithContext b "port" (any_int 5432);
     b ← internal.WithContext b "host" (any_string "b");
     internal.Build (seam true) sample_stack b None "failed")
    = Ok (Some (flooErr x))
    /\ flooerr.GetContextValue (Some (flooErr x)) "host" = any_string "b"
    /\ flooerr.HasContextKey (Some (flooErr x)) "user" = false.
Proof.
  destruct (context_last_write_wins
              [internal.CallWithContext "host" (any_string "a");
               internal.CallWithContext "port" (any_int 5432);
               internal.CallWithContext "host" (any_string "b")]
              _ sample_stack None "failed" eq_refl eq_refl)
    as [x [HB Hk]].
  exists x. split; [exact HB|]. split.
  - exact (proj1 (proj2 (Hk "host"))).
  - exact (proj2 (proj2 (Hk "user"))).
Defined.

(** X2: the same for the SDC bag: each key holds the value of the last
    [WithSDC] for it; [GetSDCValue] answers the empty string and
    [HasSDCKey] false for a key that no call wrote. *)
Theorem sdc_last_write_wins (cs : list internal.call)
    (b : internal.ErrProps) (stack : list uintptr) (cause0 : option error)
    (msg : string) :
  internal.run_chain internal.Create cs = Ok b ->
  has_outer_frames b stack = true ->
  exists x : err,
    internal.Build (seam true) stack b cause0 msg = Ok (Some (flooErr x))
    /\ forall k : string,
         map_index (flooerr.err_SDC x) k = sdc_written cs k
         /\ flooerr.GetSDCValue (Some (flooErr x)) k
            = default "" (sdc_written cs k)
         /\ flooerr.HasSDCKey (Some (flooErr x)) k
            = bool_decide (is_Some (sdc_written cs k)).
Proof.
  intros Hrun Hstack.
  destruct (run_chain_sdc cs internal.Create b ∅ Hrun eq_refl)
    as [g [Hsdc [Hlook _]]].
  assert (Hk : forall k, g !! k = sdc_written cs k).
  { intros k. rewrite Hlook.
    destruct (sdc_written cs k); [reflexivity | apply lookup_empty]. }
  rewrite Build_registered by exact Hstack.
  eexists. split; [reflexivity|]. intros k.
  unfold flooerr.GetSDCValue, flooerr.HasSDCKey, flooerr.GetSDC.
  cbn. rewrite Hsdc. cbn. rewrite Hk. repeat split.
Qed.

Lemma sdc_last_write_wins_witness :
  exists x : err,
    (b ← internal.WithSDC internal.Create "key" "value1";
     b ← internal.WithSDC b "key" "value2";
     internal.Build (seam true) sample_stack b None "failed")
    = Ok (Some (flooErr x))
    /\ flooerr.GetSDCValue (Some (flooErr x)) "key" = "value2"
    /\ flooerr.GetSDCValue (Some (flooErr x)) "other" = "".
Proof.
  destruct (sdc_last_write_wins
              [internal.CallWithSDC "key" "value1";
               internal.CallWithSDC "key" "value2"]
              _ sample_stack None "failed" eq_refl eq_refl)
    as [x [HB Hk]].
  exists x. split; [exact HB|]. split.
  - exact (proj1 (proj2 (Hk "key"))).
  - exact (proj1 (proj2 (Hk "other"))).
Defined.

(** X3: the lengths of the two maps of the built error are the numbers of
    distinct keys that the chain wrote with [WithContext] and with
    [WithSDC]: writing a key again does not grow the map. *)
Theorem bags_count_distinct_keys (cs : list internal.call)
    (b : internal.ErrProps) (stack : list uintptr) (cause0 : option error)
    (msg : string) :
  internal.run_chain internal.Create cs = Ok b ->
  has_outer_frames b stack = true ->
  exists x : err,
    internal.Build (seam true) stack b cause0 msg = Ok (Some (flooErr x))
    /\ map_len (flooerr.err_Context x) = size (context_keys cs)
    /\ map_len (flooerr.err_SDC x) = size (sdc_keys cs).
Proof.
  intros Hrun Hstack.
  destruct (run_chain_context cs internal.Create b ∅ Hrun eq_refl)
    as [g [Hctx [_ Hdom]]].
  destruct (run_chain_sdc cs internal.Create b ∅ Hrun eq_refl)
    as [g' [Hsdc [_ Hdom']]].
  rewrite Build_registered by exact Hstack.
  eexists. split; [reflexivity|]. cbn. rewrite Hctx, Hsdc. cbn.
  rewrite <- (size_dom g), <- (size_dom g'), Hdom, Hdom'.
  rewrite (dom_empty_L (D := gset string) (A := any)).
  rewrite (dom_empty_L (D := gset string) (A := string)).
  rewrite !(left_id_L ∅ (∪)). split; reflexivity.
Qed.

Lemma bags_count_distinct_keys_witness :
  exists x : err,
    (b ← internal.WithSDC internal.Create "key1" "value1";
     b ← internal.WithSDC b "key2" "value2";
     b ← internal.WithSDC b "key1" "overridden";
     internal.Build (seam true) sample_stack b None "failed")
    = Ok (Some (flooErr x))
    /\ map_len (flooerr.err_Context x) = 0%nat
    /\ map_len (flooerr.err_SDC x) = 2%nat.
Proof.
  destruct (bags_count_distinct_keys
              [internal.CallWithSDC "key1" "value1";
               internal.CallWithSDC "key2" "value2";
               internal.CallWithSDC "key1" "overridden"]
              _ sample_stack None "failed" eq_refl eq_refl)
    as [x [HB [Hc Hs]]].
  exists x. split; [exact HB|]. split.
  - rewrite Hc. reflexivity.
  - rewrite Hs. vm_compute. reflexivity.
Defined.

(** ** When [Build] returns *)

(** X4: [callers] returns exactly when at least two entries follow the
    skipped ones; it then returns a prefix of those entries, never the
    padding of its buffer, of length min(15, available) - 2; otherwise the
    slice expression panics. *)
Theorem callers_segment (skip : nat) (stack : list uintptr) :
  match internal.callers skip stack with
  | Ok pcs =>
      (2 <= length (drop skip stack))%nat
      /\ pcs `prefix_of` drop skip stack
      /\ length pcs = (Nat.min 15 (length (drop skip stack)) - 2)%nat
  | Panic _ => (length (drop skip stack) < 2)%nat
  end.
Proof.
  destruct (Nat.le_gt_cases 2 (length (drop skip stack))) as [Hle|Hlt].
  - rewrite callers_enough by exact Hle. cbv zeta.
    split; [exact Hle|]. split.
    + etrans; [apply prefix_take | apply prefix_take].
    + rewrite !length_take. unfold internal.depth. lia.
  - rewrite callers_short by exact Hlt. exact Hlt.
Qed.

(** X5: whatever the constructor seam holds, [Build] returns exactly when the
    builder does not capture or at least two stack entries follow the four
    skipped ones; in the other case it panics before it looks at the seam,
    the cause or the message. *)
Theorem Build_returns_iff (fn : option internal.BuildErrFunc)
    (b : internal.ErrProps) (stack : list uintptr) (cause0 : option error)
    (msg : string) :
  ((exists r, internal.Build fn stack b cause0 msg = Ok r)
   <-> (internal.withStackTrace b = false
        \/ (2 <= length (drop 4 stack))%nat))
  /\ ((exists reason, internal.Build fn stack b cause0 msg = Panic reason)
      <-> (internal.withStackTrace b = true
           /\ (length (drop 4 stack) < 2)%nat)).
Proof.
  destruct (has_outer_frames b stack) eqn:Hstack.
  - assert (Hret : exists r, internal.Build fn stack b cause0 msg = Ok r).
    { unfold internal.Build. rewrite (capture_returns _ _ Hstack). cbn.
      destruct fn as [f|]; [|destruct cause0]; eexists; reflexivity. }
    unfold has_outer_frames in Hstack.
    apply orb_true_iff in Hstack as Hcases.
    assert (Hok : internal.withStackTrace b = false
                  \/ (2 <= length (drop 4 stack))%nat).
    { destruct Hcases as [H|H].
      - left. apply negb_true_iff. exact H.
      - right. apply Nat.leb_le. exact H. }
    split; split.
    + intros _. exact Hok.
    + intros _. exact Hret.
    + intros [reason Hp]. destruct Hret as [r Hr]. congruence.
    + intros [Hon Hlt]. destruct Hok as [Hoff|Hle]; [congruence | lia].
  - pose proof (Build_short_stack_panics fn b stack cause0 msg Hstack) as Hp.
    unfold has_outer_frames in Hstack.
    apply orb_false_iff in Hstack as [Hon Hlt].
    apply negb_false_iff in Hon. apply Nat.leb_gt in Hlt.
    split; split.
    + intros [r Hr]. congruence.
    + intros [Hoff|Hle]; [congruence | lia].
    + intros _. split; assumption.
    + intros _. eexists. exact Hp.
Qed.

Lemma Build_returns_iff_witness :
  (exists r,
     internal.Build None goroutine_entry_stack
       (internal.WithStackTrace internal.Create false) None "x" = Ok r)
  /\ (exists reason,
        internal.Build (seam true) [] internal.Create None "x"
        = Panic reason).
Proof.
  split.
  - apply (Build_returns_iff None). left. reflexivity.
  - apply (Build_returns_iff (seam true)). split; [reflexivity | cbn; lia].
Defined.

(** X6: with no constructor registered, [Build] hands a non-nil cause back
    as it is, message, code and bags of the builder dropped; with a nil
    cause it returns an error that only carries the rendered message: not a
    [FlooErr], without code or context, alone in its chain. *)
Theorem Build_unset_fallback (b : internal.ErrProps) (stack : list uintptr)
    (msg : string) :
  has_outer_frames b stack = true ->
  (forall c : error,
     internal.Build (seam false) stack b (Some c) msg = Ok (Some c))
  /\ exists e : error,
       internal.Build (seam false) stack b None msg = Ok (Some e)
       /\ error_Error e = renderedMessage (internal.message b) msg
       /\ flooerr.IsFlooErr (Some e) = false
       /\ flooerr.GetCode (Some e) = ""
       /\ flooerr.GetContext (Some e) = nil_map
       /\ flooerr.GetSDC (Some e) = nil_map
       /\ flooerr.UnwrapChain (Some e) = [e].
Proof.
  intros Hstack. split.
  - intros c. apply (Build_unset b stack (Some c) msg Hstack).
  - rewrite (Build_unset b stack None msg Hstack).
    eexists. split; [reflexivity|]. repeat split.
Qed.

Lemma Build_unset_fallback_witness :
  internal.Build (seam false) sample_stack
    (internal.WithCode (internal.WithMessage internal.Create "test") "E1")
    (Some (errorString "original")) "test error"
  = Ok (Some (errorString "original")).
Proof.
  apply (Build_unset_fallback
           (internal.WithCode (internal.WithMessage internal.Create "test")
              "E1") sample_stack "test error" eq_refl).
Defined.

(** ** Reading an error back *)

Lemma run_chain_message_code (cs : list internal.call) :
  forall b b' : internal.ErrProps,
    internal.run_chain b cs = Ok b' ->
    internal.message b' = default (internal.message b) (last_message cs)
    /\ internal.code b' = default (internal.code b) (last_code cs).
Proof.
  induction cs as [| c cs IH]; intros b b' Hrun.
  - cbn in Hrun. injection Hrun as <-. split; reflexivity.
  - cbn in Hrun. destruct (internal.run_call b c) as [b1|reason] eqn:Hcall;
      cbn in Hrun; [|discriminate Hrun].
    destruct (IH b1 b' Hrun) as [Hm Hc]. rewrite Hm, Hc.
    cbn [last_message last_code].
    assert (Hb1 : internal.message b1 =
                  match c with
                  | internal.CallWithMessage m => m
                  | _ => internal.message b
                  end
                  /\ internal.code b1 =
                     match c with
                     | internal.CallWithCode m => m
                     | _ => internal.code b
                     end).
    { destruct c as [m | m | flag | k v | k v]; cbn in Hcall.
      - injection Hcall as <-. split; reflexivity.
      - injection Hcall as <-. split; reflexivity.
      - injection Hcall as <-. split; reflexivity.
      - unfold internal.WithContext in Hcall.
        destruct (map_assign (internal.context b) k v); cbn in Hcall;
          [|discriminate Hcall].
        injection Hcall as <-. split; reflexivity.
      - unfold internal.WithSDC in Hcall.
        destruct (map_assign (internal.sdc b) k v); cbn in Hcall;
          [|discriminate Hcall].
        injection Hcall as <-. split; reflexivity. }
    destruct Hb1 as [Hm1 Hc1]. rewrite Hm1, Hc1.
    destruct (last_message cs), (last_code cs), c; split; reflexivity.
Qed.

(** X7: an error built after a chain of calls on a created builder is a
    [FlooErr] whose getters give back what the chain set last: the code,
    the cause, and as message the explicit one, empty when none was set,
    even though [Error()] then shows the fallback. *)
Theorem getters_read_the_builder (cs : list internal.call)
    (b : internal.ErrProps) (stack : list uintptr) (cause0 : option error)
    (msg : string) :
  internal.run_chain internal.Create cs = Ok b ->
  has_outer_frames b stack = true ->
  exists e : error,
    internal.Build (seam true) stack b cause0 msg = Ok (Some e)
    /\ flooerr.IsFlooErr (Some e) = true
    /\ flooerr.GetCode (Some e) = default "" (last_code cs)
    /\ flooerr.GetMessage (Some e) = default "" (last_message cs)
    /\ flooerr.GetCause (Some e) = cause0
    /\ errors_Unwrap e = cause0
    /\ (last_message cs = None -> cause0 = None ->
        flooerr.GetMessage (Some e) = "" /\ error_Error e = msg).
Proof.
  intros Hrun Hstack.
  destruct (run_chain_message_code cs internal.Create b Hrun) as [Hm Hc].
  rewrite Build_registered by exact Hstack.
  eexists. split; [reflexivity|].
  unfold flooerr.IsFlooErr, flooerr.GetCode, flooerr.GetMessage,
    flooerr.GetCause. cbn. rewrite Hm, Hc. cbn.
  do 5 (split; [reflexivity|]).
  intros Hnone Hnil. rewrite Hnone, Hnil. split; reflexivity.
Qed.

Lemma getters_read_the_builder_witness :
  exists e : error,
    internal.Build (seam true) sample_stack
      (internal.WithCode (internal.WithCode internal.Create "A") "B")
      None "fallback" = Ok (Some e)
    /\ flooerr.GetCode (Some e) = "B"
    /\ flooerr.GetMessage (Some e) = ""
    /\ error_Error e = "fallback".
Proof.
  destruct (getters_read_the_builder
              [internal.CallWithCode "A"; internal.CallWithCode "B"]
              _ sample_stack None "fallback" eq_refl eq_refl)
    as [e [HB [_ [Hc [_ [_ [_ Hm]]]]]]].
  destruct (Hm eq_refl eq_refl) as [Hmsg Herr].
  exists e. split; [exact HB|]. split; [exact Hc|].
  split; [exact Hmsg | exact Herr].
Defined.

Lemma errors_As_wrap_all (msgs : list string) (e : error) :
  flooerr.errors_As (wrap_all msgs e) = flooerr.errors_As e.
Proof.
  induction msgs as [| m msgs IH]; [reflexivity | exact IH].
Qed.

(** X8: the getters look through plain wrappers: under any number of
    [fmt.Errorf] layers an error answers [AsFlooErr], [GetCode],
    [GetMessage], [GetContext], [GetSDC], [GetCause], [IsFlooErr] and
    [HasCode] as it does bare; so [GetCause] of a wrapper is the cause of the
    structured error inside, not what the wrapper unwraps to. *)
Theorem getters_see_through_wrappers (msgs : list string) (e : error) :
  flooerr.AsFlooErr (Some (wrap_all msgs e)) = flooerr.AsFlooErr (Some e)
  /\ flooerr.GetCode (Some (wrap_all msgs e)) = flooerr.GetCode (Some e)
  /\ flooerr.GetMessage (Some (wrap_all msgs e))
     = flooerr.GetMessage (Some e)
  /\ flooerr.GetContext (Some (wrap_all msgs e))
     = flooerr.GetContext (Some e)
  /\ flooerr.GetSDC (Some (wrap_all msgs e)) = flooerr.GetSDC (Some e)
  /\ flooerr.GetCause (Some (wrap_all msgs e)) = flooerr.GetCause (Some e)
  /\ flooerr.IsFlooErr (Some (wrap_all msgs e))
     = flooerr.IsFlooErr (Some e)
  /\ (forall c, flooerr.HasCode (Some (wrap_all msgs e)) c
                = flooerr.HasCode (Some e) c)
  /\ (forall (m : string) (x : err),
        flooerr.GetCause (Some (wrapError m (flooErr x))) = cause x).
Proof.
  assert (Has : flooerr.AsFlooErr (Some (wrap_all msgs e))
                = flooerr.AsFlooErr (Some e)).
  { unfold flooerr.AsFlooErr. rewrite errors_As_wrap_all. reflexivity. }
  unfold flooerr.HasCode, flooerr.GetCodeString, flooerr.GetCode,
    flooerr.GetMessage, flooerr.GetContext, flooerr.GetSDC,
    flooerr.GetCause, flooerr.IsFlooErr.
  rewrite Has. repeat split.
Qed.

Lemma AsFlooErr_none (e : error) :
  Forall plain (flooerr.error_tree e) ->
  flooerr.AsFlooErr (Some e) = (None, false).
Proof.
  intros Hall. unfold flooerr.AsFlooErr.
  rewrite (errors_As_all_plain e Hall). reflexivity.
Qed.

(** X9: nil, and an error whose tree (what it unwraps to, through the
    children of multi-error wrappers too) holds no [FlooErr], get the zero
    answer from every getter: empty code and message, nil maps, nil cause,
    empty trace, nil and empty string for any key, false from the key
    tests; and [HasCode] holds for the empty code alone. *)
Theorem getters_zero_on_plain (CallersFrames : list uintptr -> list Frame)
    (e : option error) :
  (forall e', e = Some e' -> Forall plain (flooerr.error_tree e')) ->
  flooerr.IsFlooErr e = false
  /\ flooerr.GetCode e = "" /\ flooerr.GetCodeString e = ""
  /\ flooerr.GetMessage e = ""
  /\ flooerr.GetContext e = nil_map /\ flooerr.GetSDC e = nil_map
  /\ flooerr.GetCause e = None
  /\ flooerr.GetStackTrace CallersFrames e = ([], e)
  /\ (forall k, flooerr.GetContextValue e k = any_nil
                /\ flooerr.GetSDCValue e k = ""
                /\ flooerr.HasContextKey e k = false
                /\ flooerr.HasSDCKey e k = false)
  /\ (forall c, flooerr.HasCode e c = true <-> c = "").
Proof.
  intros Hplain.
  assert (Has : flooerr.AsFlooErr e = (None, false)).
  { destruct e as [e'|]; [|reflexivity].
    apply AsFlooErr_none. apply Hplain. reflexivity. }
  unfold flooerr.HasCode, flooerr.GetCodeString, flooerr.GetCode,
    flooerr.GetMessage, flooerr.GetContext, flooerr.GetSDC,
    flooerr.GetCause, flooerr.IsFlooErr, flooerr.GetStackTrace,
    flooerr.GetContextValue, flooerr.GetSDCValue, flooerr.HasContextKey,
    flooerr.HasSDCKey, flooerr.GetContext, flooerr.GetSDC.
  rewrite Has. cbn. repeat split.
  - intros Hc. destruct c; [reflexivity | discriminate Hc].
  - intros ->. reflexivity.
Qed.

Lemma getters_zero_on_plain_witness :
  flooerr.GetCause (Some (wrapError "io" disk_full)) = None
  /\ flooerr.HasCode (Some disk_full) "" = true
  /\ flooerr.GetCode None = "".
Proof.
  split; [|split].
  - destruct (getters_zero_on_plain (fun _ => [])
                (Some (wrapError "io" disk_full)))
      as [_ [_ [_ [_ [_ [_ [Hcause _]]]]]]]; [|exact Hcause].
    intros e' He. injection He as <-. repeat constructor.
  - destruct (getters_zero_on_plain (fun _ => []) (Some disk_full))
      as [_ [_ [_ [_ [_ [_ [_ [_ [_ Hcode]]]]]]]]].
    + intros e' He. injection He as <-. repeat constructor.
    + apply Hcode. reflexivity.
  - destruct (getters_zero_on_plain (fun _ => []) None)
      as [_ [Hcode _]]; [|exact Hcode].
    intros e' He. discriminate He.
Defined.

(** ** More on the walk of the chain *)

Lemma GetRootCause_last (e : option error) :
  flooerr.GetRootCause e = last (flooerr.UnwrapChain e).
Proof.
  unfold flooerr.GetRootCause.
  destruct (flooerr.UnwrapChain e) as [| x l]; [reflexivity|].
  cbn [length Nat.eqb]. rewrite last_lookup.
  replace (S (length l) - 1)%nat with (Nat.pred (length (x :: l)))
    by (cbn [length]; lia).
  reflexivity.
Qed.

Lemma UnwrapChain_matched (e : error) (x : err) :
  flooerr.errors_As e = Some x ->
  flooerr.UnwrapChain (Some e) = e :: flooerr.UnwrapChain (cause x).
Proof.
  intros Hfound. rewrite UnwrapChain_unfold.
  unfold unwrap_link, flooerr.AsFlooErr. rewrite Hfound. reflexivity.
Qed.

(** X10: when [AsFlooErr] finds a structured error [x] in a link, at the
    link or below plain wrappers, the walk continues with the cause of [x]:
    what lies between the link and that cause is left out of the result.
    In particular when [x] has no cause the result is the link alone and
    [GetRootCause] returns the link, wrapper or not. *)
Theorem UnwrapChain_jumps_to_matched_cause (e : error) (x : err) :
  flooerr.errors_As e = Some x ->
  flooerr.UnwrapChain (Some e) = e :: flooerr.UnwrapChain (cause x)
  /\ (cause x = None ->
      flooerr.UnwrapChain (Some e) = [e]
      /\ flooerr.GetRootCause (Some e) = Some e)
  /\ (forall c, cause x = Some c ->
      flooerr.GetRootCause (Some e) = flooerr.GetRootCause (Some c)).
Proof.
  intros Hfound. pose proof (UnwrapChain_matched e x Hfound) as Hwalk.
  split; [exact Hwalk|]. split.
  - intros Hnone. rewrite Hnone in Hwalk.
    change (flooerr.UnwrapChain None) with (@nil error) in Hwalk.
    split; [exact Hwalk|]. rewrite GetRootCause_last, Hwalk. reflexivity.
  - intros c Hc. rewrite !GetRootCause_last, Hwalk, Hc.
    rewrite (UnwrapChain_unfold c). reflexivity.
Qed.

Lemma UnwrapChain_jumps_to_matched_cause_witness :
  flooerr.UnwrapChain
    (Some (wrapError "a" (wrapError "b" (flooErr db_err))))
  = [wrapError "a" (wrapError "b" (flooErr db_err)); disk_full].
Proof.
  apply (UnwrapChain_jumps_to_matched_cause
           (wrapError "a" (wrapError "b" (flooErr db_err))) db_err).
  reflexivity.
Defined.

(** X11: on an error in whose chain no structured error sits below a plain
    wrapper, [UnwrapChain] is the whole cause chain, outermost first, and
    [GetRootCause] is the last error of the chain, the one that unwraps to
    nil. *)
Theorem UnwrapChain_whole_chain (e : error) :
  no_wrapped_FlooErr e = true ->
  flooerr.UnwrapChain (Some e) = flooerr.cause_chain e
  /\ flooerr.GetRootCause (Some e) = last (flooerr.cause_chain e)
  /\ exists root : error,
       flooerr.GetRootCause (Some e) = Some root
       /\ errors_Unwrap root = None.
Proof.
  intros Hplain.
  pose proof (UnwrapChain_cause_chain _ e (le_n _) Hplain) as Hwalk.
  split; [exact Hwalk|]. rewrite GetRootCause_last, Hwalk.
  split; [reflexivity|].
  clear Hwalk Hplain.
  assert (Hlast : forall n (e0 : error),
            (length (flooerr.cause_chain e0) <= n)%nat ->
            exists root, last (flooerr.cause_chain e0) = Some root
                         /\ errors_Unwrap root = None).
  { induction n as [| n IH]; intros e0 Hn.
    - rewrite (cause_chain_step e0) in Hn. cbn in Hn. lia.
    - rewrite (cause_chain_step e0) in Hn |- *.
      destruct (errors_Unwrap e0) as [inner|] eqn:Hun.
      + cbn in Hn. destruct (IH inner) as [root [Hroot Hnil]]; [lia|].
        exists root. split; [|exact Hnil].
        rewrite (cause_chain_step inner) in Hroot |- *. exact Hroot.
      + exists e0. split; [reflexivity | exact Hun]. }
  exact (Hlast _ e (le_n _)).
Qed.

Lemma UnwrapChain_whole_chain_witness :
  flooerr.UnwrapChain (Some (flooErr top_err))
  = flooerr.cause_chain (flooErr top_err).
Proof.
  apply (UnwrapChain_whole_chain (flooErr top_err)). reflexivity.
Defined.









(** X13: an error built around a non-nil cause puts itself in front of the
    cause's walk and leaves the root cause as it was. *)
Theorem Build_extends_chain (b : internal.ErrProps) (stack : list uintptr)
    (c : error) (msg : string) :
  has_outer_frames b stack = true ->
  exists e : error,
    internal.Build (seam true) stack b (Some c) msg = Ok (Some e)
    /\ flooerr.cause_chain e = e :: flooerr.cause_chain c
    /\ flooerr.UnwrapChain (Some e) = e :: flooerr.UnwrapChain (Some c)
    /\ flooerr.GetRootCause (Some e) = flooerr.GetRootCause (Some c).
Proof.
  intros Hstack. rewrite Build_registered by exact Hstack.
  eexists. split; [reflexivity|]. split; [reflexivity|].
  split.
  - rewrite UnwrapChain_unfold. reflexivity.
  - rewrite !GetRootCause_last.
    rewrite (UnwrapChain_unfold (flooErr _)).
    change (unwrap_link (flooErr ?x)) with (cause x).
    cbn [flooerr.newErr cause]. rewrite (UnwrapChain_unfold c).
    reflexivity.
Qed.

Lemma Build_extends_chain_witness :
  exists e : error,
    internal.Build (seam true) sample_stack
      (internal.WithMessage internal.Create "top") (Some (flooErr db_err))
      "top" = Ok (Some e)
    /\ flooerr.GetRootCause (Some e) = Some disk_full.
Proof.
  destruct (Build_extends_chain (internal.WithMessage internal.Create "top")
              sample_stack (flooErr db_err) "top" eq_refl)
    as [e [HB [_ [_ Hroot]]]].
  exists e. split; [exact HB|]. rewrite Hroot. reflexivity.
Defined.

(** ** More on the stack trace *)

Lemma StackTrace_loop_removelast (frames : list Frame) :
  forall traces : list stacktrace,
    flooerr.StackTrace_loop frames traces
    = traces ++ (stacktrace_of <$> removelast frames).
Proof.
  induction frames as [| f [| g rest] IH]; intros traces.
  - cbn. rewrite app_nil_r. reflexivity.
  - cbn. rewrite app_nil_r. reflexivity.
  - change (flooerr.StackTrace_loop (f :: g :: rest) traces)
      with (flooerr.StackTrace_loop (g :: rest) (traces ++ [stacktrace_of f])).
    rewrite IH, <- app_assoc. reflexivity.
Qed.

(** X14: the first [StackTrace()] of an error built with capture on resolves
    the recorded pcs and returns the frames in order, all but the last one:
    the loop leaves at the frame with which [Next] reports no more frames,
    before it appends it. A capture that resolves to one frame gives an
    empty trace. *)
Theorem StackTrace_leaves_last_frame_out
    (CallersFrames : list uintptr -> list Frame) (e : err) :
  stackTrace e = [] ->
  stackTracePTR e <> [] ->
  fst (flooerr.err_StackTrace CallersFrames e)
  = stacktrace_of <$> removelast (CallersFrames (stackTracePTR e))
  /\ length (fst (flooerr.err_StackTrace CallersFrames e))
     = (length (CallersFrames (stackTracePTR e)) - 1)%nat
  /\ stackTrace (snd (flooerr.err_StackTrace CallersFrames e))
     = fst (flooerr.err_StackTrace CallersFrames e).
Proof.
  intros Hcache Hptr. rewrite err_StackTrace_cases, Hcache.
  destruct (stackTracePTR e) as [| pc pcs] eqn:Hpcs; [contradiction|].
  cbv zeta. cbn [fst snd flooerr.set_stackTrace stackTrace].
  rewrite StackTrace_loop_removelast. cbn [app].
  split; [reflexivity|]. split; [|reflexivity].
  rewrite length_fmap.
  generalize (CallersFrames (pc :: pcs)). intros frames.
  induction frames as [| f [| g rest] IH]; [reflexivity | reflexivity |].
  change (removelast (f :: g :: rest)) with (f :: removelast (g :: rest)).
  cbn [length] in IH |- *. rewrite IH. lia.
Qed.

Lemma StackTrace_leaves_last_frame_out_witness :
  fst (flooerr.err_StackTrace
         (fun pcs => (fun pc => mkFrame "f" "file.go" pc) <$> pcs)
         (flooerr.newErr "" "m" "" None [10; 20; 30] nil_map nil_map))
  = [mkStacktrace "f" "file.go" 10; mkStacktrace "f" "file.go" 20].
Proof.
  refine (proj1 (StackTrace_leaves_last_frame_out
                   (fun pcs => (fun pc => mkFrame "f" "file.go" pc) <$> pcs)
                   (flooerr.newErr "" "m" "" None [10; 20; 30] nil_map
                      nil_map) eq_refl _)).
  discriminate.
Defined.

(** X15: the pcs that an error carries are decided by the last
    [WithStackTrace] of the chain, capture being on when the chain has none:
    on, they are the entries that [callers] keeps; off, there are none and
    the stack is not looked at. *)
Theorem capture_follows_last_setting (cs : list internal.call)
    (b : internal.ErrProps) (stack : list uintptr) (cause0 : option error)
    (msg : string) :
  internal.run_chain internal.Create cs = Ok b ->
  has_outer_frames b stack = true ->
  exists x : err,
    internal.Build (seam true) stack b cause0 msg = Ok (Some (flooErr x))
    /\ stackTrace x = []
    /\ stackTracePTR x =
       if default true (last_stack_setting cs) then recorded stack else [].
Proof.
  intros Hrun Hstack.
  pose proof (run_chain_withStackTrace cs internal.Create b Hrun) as Hflag.
  rewrite Build_registered by exact Hstack.
  eexists. split; [reflexivity|]. split; [reflexivity|].
  cbn. unfold captured. rewrite Hflag. reflexivity.
Qed.

Lemma capture_follows_last_setting_witness :
  exists x : err,
    internal.Build (seam true) sample_stack
      (internal.WithStackTrace
         (internal.WithStackTrace internal.Create false) true)
      None "m" = Ok (Some (flooErr x))
    /\ stackTracePTR x = [4198656].
Proof.
  destruct (capture_follows_last_setting
              [internal.CallWithStackTrace false;
               internal.CallWithStackTrace true]
              _ sample_stack None "m" eq_refl eq_refl)
    as [x [HB [_ Hptr]]].
  exists x. split; [exact HB | exact Hptr].
Defined.

(** ** [Parse] and the cache *)

Lemma err_StackTrace_again (CallersFrames : list uintptr -> list Frame)
    (e : err) :
  flooerr.err_StackTrace CallersFrames
    (snd (flooerr.err_StackTrace CallersFrames e))
  = flooerr.err_StackTrace CallersFrames e.
Proof.
  rewrite (err_StackTrace_cases CallersFrames e).
  destruct (stackTrace e) as [| t ts] eqn:Hcache;
    [destruct (stackTracePTR e) as [| pc pcs] eqn:Hptr|].
  - cbn [snd]. rewrite err_StackTrace_cases, Hcache, Hptr. reflexivity.
  - cbv zeta. cbn [snd]. rewrite err_StackTrace_cases.
    cbn [flooerr.set_stackTrace stackTrace stackTracePTR].
    destruct (flooerr.StackTrace_loop (CallersFrames (pc :: pcs)) [])
      as [| t ts] eqn:Htraces.
    + rewrite Hptr, Htraces. reflexivity.
    + reflexivity.
  - cbn [snd]. rewrite err_StackTrace_cases, Hcache. reflexivity.
Qed.

(** [StackTrace] changes nothing of an error but its cache. *)
Lemma err_StackTrace_frame (CallersFrames : list uintptr -> list Frame)
    (e : err) :
  let e' := snd (flooerr.err_StackTrace CallersFrames e) in
  message e' = message e /\ errMessage e' = errMessage e
  /\ code e' = code e /\ cause e' = cause e
  /\ stackTracePTR e' = stackTracePTR e
  /\ context e' = context e /\ sdc e' = sdc e.
Proof.
  cbv zeta. rewrite err_StackTrace_cases.
  destruct (stackTrace e) as [| t ts];
    [destruct (stackTracePTR e) as [| pc pcs] eqn:Hptr|];
    cbn; rewrite ?Hptr; repeat split.
Qed.

Lemma errors_As_store_As (e : error) (x x' : err) :
  flooerr.errors_As e = Some x ->
  flooerr.errors_As (flooerr.store_As e x') = Some x'.
Proof.
  revert x.
  induction e as [s | msg inner IH | msg | y IH | msg errs IH]
    using error_tree_ind; intros x Hfound; try discriminate Hfound.
  - cbn in Hfound |- *. exact (IH x Hfound).
  - reflexivity.
  - cbn [flooerr.store_As]. rewrite errors_As_children in Hfound |- *.
    induction IH as [| c l Hc _ IHl]; [discriminate Hfound|].
    cbn [omap list_omap] in Hfound.
    destruct (flooerr.errors_As c) as [y|] eqn:Hy.
    + cbn [omap list_omap]. rewrite (Hc y eq_refl). reflexivity.
    + cbn [omap list_omap]. rewrite Hy. exact (IHl Hfound).
Qed.

Lemma error_Error_store_As (e : error) (x x' : err) :
  flooerr.errors_As e = Some x ->
  errMessage x' = errMessage x ->
  cause x' = cause x ->
  error_Error (flooerr.store_As e x') = error_Error e.
Proof.
  intros Hfound Hmsg Hcause.
  destruct e as [s | msg inner | msg | y | msg errs];
    try discriminate Hfound.
  - reflexivity.
  - cbn in Hfound. injection Hfound as ->. cbn. rewrite Hmsg, Hcause.
    reflexivity.
  - reflexivity.
Qed.

Lemma store_As_again (e : error) (x1 x2 : err) :
  flooerr.store_As (flooerr.store_As e x1) x2 = flooerr.store_As e x2.
Proof.
  induction e as [s | msg inner IH | msg | y IH | msg errs IH]
    using error_tree_ind; cbn [flooerr.store_As]; try reflexivity.
  - rewrite IH. reflexivity.
  - f_equal. induction IH as [| c l Hc _ IHl]; [reflexivity|].
    destruct (flooerr.errors_As c) as [y|] eqn:Hy.
    + rewrite (errors_As_store_As c y x1 Hy), Hc. reflexivity.
    + rewrite Hy, IHl. reflexivity.
Qed.

(** X16: [Parse] and [GetStackTrace] leave the error as it was but for the
    stack cache of the structured error they find: its [Error()] text is
    the same, and parsing it again gives the same snapshot and changes
    nothing more; [GetStackTrace] returns the trace of the snapshot. *)
Theorem Parse_again (CallersFrames : list uintptr -> list Frame)
    (e : option error) :
  let after := snd (flooerr.Parse CallersFrames e) in
  (error_Error <$> after) = (error_Error <$> e)
  /\ flooerr.Parse CallersFrames after
     = (fst (flooerr.Parse CallersFrames e), after)
  /\ flooerr.GetStackTrace CallersFrames e
     = (ErrorInfo.StackTrace (fst (flooerr.Parse CallersFrames e)), after).
Proof.
  cbv zeta. destruct e as [e'|]; [|repeat split].
  unfold flooerr.Parse, flooerr.GetStackTrace, flooerr.AsFlooErr.
  destruct (flooerr.errors_As e') as [x|] eqn:Hfound.
  - pose proof (err_StackTrace_again CallersFrames x) as Hagain.
    destruct (err_StackTrace_frame CallersFrames x)
      as [Hm [Hem [Hc [Hca [_ [Hctx Hs]]]]]].
    destruct (flooerr.err_StackTrace CallersFrames x) as [st x'] eqn:Hst.
    cbn [fst snd] in *. split; [|split].
    + cbn. f_equal. apply (error_Error_store_As e' x x' Hfound Hem Hca).
    + rewrite (errors_As_store_As e' x x' Hfound), Hagain.
      unfold flooerr.err_Code, flooerr.err_Message, flooerr.err_Error,
        flooerr.err_Context, flooerr.err_SDC, flooerr.err_Unwrap.
      rewrite Hm, Hem, Hc, Hca, Hctx, Hs, store_As_again. reflexivity.
    + reflexivity.
  - cbn. rewrite Hfound. repeat split.
Qed.

(** ** Order of the calls, entry points and the seam *)

(** X17: two chains of calls on created builders leave the same builder as
    soon as they agree on the last message, the last code, the last stack
    setting and, key by key, the last value written in each bag: the order
    of the calls matters only between writes of the same field or key. *)
Theorem chains_agree (cs1 cs2 : list internal.call)
    (b1 b2 : internal.ErrProps) :
  internal.run_chain internal.Create cs1 = Ok b1 ->
  internal.run_chain internal.Create cs2 = Ok b2 ->
  last_message cs1 = last_message cs2 ->
  last_code cs1 = last_code cs2 ->
  last_stack_setting cs1 = last_stack_setting cs2 ->
  (forall k, context_written cs1 k = context_written cs2 k) ->
  (forall k, sdc_written cs1 k = sdc_written cs2 k) ->
  b1 = b2.
Proof.
  intros Hrun1 Hrun2 Hmsg Hcode Hflag Hctx Hsdc.
  destruct (run_chain_message_code cs1 _ _ Hrun1) as [Hm1 Hc1].
  destruct (run_chain_message_code cs2 _ _ Hrun2) as [Hm2 Hc2].
  pose proof (run_chain_withStackTrace cs1 _ _ Hrun1) as Hf1.
  pose proof (run_chain_withStackTrace cs2 _ _ Hrun2) as Hf2.
  destruct (run_chain_context cs1 _ _ ∅ Hrun1 eq_refl) as [g1 [Hg1 [Hl1 _]]].
  destruct (run_chain_context cs2 _ _ ∅ Hrun2 eq_refl) as [g2 [Hg2 [Hl2 _]]].
  destruct (run_chain_sdc cs1 _ _ ∅ Hrun1 eq_refl) as [s1 [Hs1 [Hk1 _]]].
  destruct (run_chain_sdc cs2 _ _ ∅ Hrun2 eq_refl) as [s2 [Hs2 [Hk2 _]]].
  assert (Hg : g1 = g2).
  { apply map_eq. intros k. rewrite Hl1, Hl2, Hctx. reflexivity. }
  assert (Hs : s1 = s2).
  { apply map_eq. intros k. rewrite Hk1, Hk2, Hsdc. reflexivity. }
  destruct b1 as [m1 c1 f1 x1 y1], b2 as [m2 c2 f2 x2 y2]. cbn in *.
  congruence.
Qed.

Lemma chains_agree_witness :
  exists b : internal.ErrProps,
    (b ← internal.WithContext (flooerr.Message "m") "k" (any_int 1);
     internal.WithSDC (internal.WithCode b "c") "s" "v") = Ok b
    /\ (b ← internal.WithSDC (flooerr.Code "c") "s" "v";
        b ← internal.WithContext b "k" (any_int 0);
        internal.WithContext (internal.WithMessage b "m") "k" (any_int 1))
       = Ok b.
Proof.
  assert (H1 : internal.run_chain internal.Create
                 [internal.CallWithMessage "m";
                  internal.CallWithContext "k" (any_int 1);
                  internal.CallWithCode "c"; internal.CallWithSDC "s" "v"]
               = Ok {| internal.message := "m"; internal.code := "c";
                       internal.withStackTrace := true;
                       internal.context := make_map (<["k" := any_int 1]> ∅);
                       internal.sdc := make_map (<["s" := "v"]> ∅) |})
    by reflexivity.
  assert (H2 : internal.run_chain internal.Create
                 [internal.CallWithCode "c"; internal.CallWithSDC "s" "v";
                  internal.CallWithContext "k" (any_int 0);
                  internal.CallWithMessage "m";
                  internal.CallWithContext "k" (any_int 1)]
               = Ok {| internal.message := "m"; internal.code := "c";
                       internal.withStackTrace := true;
                       internal.context :=
                         make_map (<["k" := any_int 1]>
                                     (<["k" := any_int 0]> ∅));
                       internal.sdc := make_map (<["s" := "v"]> ∅) |})
    by reflexivity.
  assert (Hc : forall k,
             context_written
               [internal.CallWithMessage "m";
                internal.CallWithContext "k" (any_int 1);
                internal.CallWithCode "c"; internal.CallWithSDC "s" "v"] k
             = context_written
                 [internal.CallWithCode "c"; internal.CallWithSDC "s" "v";
                  internal.CallWithContext "k" (any_int 0);
                  internal.CallWithMessage "m";
                  internal.CallWithContext "k" (any_int 1)] k).
  { intros k. cbn. destruct (decide ("k" = k)); reflexivity. }
  assert (Hs : forall k,
             sdc_written
               [internal.CallWithMessage "m";
                internal.CallWithContext "k" (any_int 1);
                internal.CallWithCode "c"; internal.CallWithSDC "s" "v"] k
             = sdc_written
                 [internal.CallWithCode "c"; internal.CallWithSDC "s" "v";
                  internal.CallWithContext "k" (any_int 0);
                  internal.CallWithMessage "m";
                  internal.CallWithContext "k" (any_int 1)] k).
  { intros k. cbn. destruct (decide ("s" = k)); reflexivity. }
  pose proof (chains_agree _ _ _ _ H1 H2 eq_refl eq_refl eq_refl Hc Hs)
    as Heq.
  eexists. split; [reflexivity|].
  etrans; [|exact (f_equal Ok (eq_sym Heq))]. reflexivity.
Defined.

(** X18: [Error] and [Wrap] of package [flooerr] build on a fresh builder:
    the error they return has an empty [Message()] and code and empty bags,
    its text is the message given, followed by the cause's text when a
    cause is given; [Wrap] of a nil error is still an error, the one that
    [Error] returns. *)
Theorem entry_points (stack : list uintptr) (e : option error)
    (msg : string) :
  (2 <= length (drop 4 stack))%nat ->
  flooerr.Error (seam true) stack msg = flooerr.Wrap (seam true) stack None msg
  /\ exists x : err,
       flooerr.Wrap (seam true) stack e msg = Ok (Some (flooErr x))
       /\ flooerr.err_Message x = "" /\ flooerr.err_Code x = ""
       /\ flooerr.err_Unwrap x = e
       /\ map_len (flooerr.err_Context x) = O
       /\ map_len (flooerr.err_SDC x) = O
       /\ stackTracePTR x = recorded stack
       /\ flooerr.err_Error x =
          match e with
          | Some c => msg +:+ "; caused by: " +:+ error_Error c
          | None => msg
          end.
Proof.
  intros Hlen. split; [reflexivity|].
  unfold flooerr.Wrap. rewrite Build_registered.
  - eexists. split; [reflexivity|]. repeat split.
  - unfold has_outer_frames. apply Nat.leb_le in Hlen. rewrite Hlen.
    apply orb_true_r.
Qed.

Lemma entry_points_witness :
  exists x : err,
    flooerr.Wrap (seam true) sample_stack (Some disk_full) "read config"
    = Ok (Some (flooErr x))
    /\ flooerr.err_Error x = "read config; caused by: disk full".
Proof.
  destruct (entry_points sample_stack (Some disk_full) "read config")
    as [_ [x [HB [_ [_ [_ [_ [_ [_ HE]]]]]]]]].
  - cbn. lia.
  - exists x. split; [exact HB | exact HE].
Defined.

(** X19: a constructor set with [SetBuildErrFunc] decides what [Build]
    returns: it is called once the capture is done, with the explicit
    message, the rendered message, the code, the cause, the recorded pcs and
    the two bags, and its result is returned as it is, nil included. *)
Theorem Build_calls_the_seam (fn : internal.BuildErrFunc)
    (b : internal.ErrProps) (stack : list uintptr) (cause0 : option error)
    (msg : string) :
  has_outer_frames b stack = true ->
  internal.Build (internal.SetBuildErrFunc (Some fn)) stack b cause0 msg
  = Ok (fn (internal.message b)
           (renderedMessage (internal.message b) msg)
           (internal.code b) cause0 (captured b stack)
           (internal.context b) (internal.sdc b))
  /\ ((forall m em c ca pcs ctx s, fn m em c ca pcs ctx s = None) ->
      internal.Build (internal.SetBuildErrFunc (Some fn)) stack b cause0 msg
      = Ok None).
Proof.
  intros Hstack.
  assert (HB : internal.Build (internal.SetBuildErrFunc (Some fn)) stack b
                 cause0 msg
               = Ok (fn (internal.message b)
                        (renderedMessage (internal.message b) msg)
                        (internal.code b) cause0 (captured b stack)
                        (internal.context b) (internal.sdc b))).
  { unfold internal.Build, internal.SetBuildErrFunc.
    rewrite (capture_returns _ _ Hstack). cbn.
    rewrite renderedMessage_decide. reflexivity. }
  split; [exact HB|]. intros Hnil. rewrite HB, Hnil. reflexivity.
Qed.

Lemma Build_calls_the_seam_witness :
  internal.Build
    (internal.SetBuildErrFunc
       (Some (fun _ _ _ _ _ _ _ => Some (errorString "custom error"))))
    sample_stack (internal.WithMessage internal.Create "test") None
    "test error"
  = Ok (Some (errorString "custom error")).
Proof.
  apply (Build_calls_the_seam
           (fun _ _ _ _ _ _ _ => Some (errorString "custom error"))
           (internal.WithMessage internal.Create "test") sample_stack None
           "test error" eq_refl).
Defined.
